(** * Premiere Pro Marker Importer: a shallow embedding of hockey_markers.jsx

    The development follows the second (final) script of the file: the
    helpers [trim], [readCSV], [parseCSVData], [parseTimeString],
    [insertMarkers] and [main].

    - JavaScript strings are [string]s of 8-bit characters (code units
      below 256).
    - JavaScript Numbers are IEEE 754 binary64 values, modelled by
      [spec_float] with precision 53 and maximal exponent 1024.
    - Exceptions are values of [JSError]; the console, the host sequence and
      the record of sink invocations are threaded through a state and error
      monad. *)

From Stdlib Require Import ZArith List String Ascii Bool Lia.
From Stdlib Require Import SpecFloat.
Import ListNotations.

Local Open Scope string_scope.
Local Open Scope Z_scope.

(** ** Characters and strings *)

Module JSString.

(** The characters matched by [\s] (and skipped by [parseFloat] and
    [parseInt]) among the code units below 256: TAB, LF, VT, FF, CR, SP
    and NBSP. *)
Definition is_space (c : ascii) : bool :=
  match c with
  | "009" | "010" | "011" | "012" | "013" | " " | "160" => true
  | _ => false
  end%char.

Definition is_digit (c : ascii) : bool :=
  match c with
  | "0" | "1" | "2" | "3" | "4" | "5" | "6" | "7" | "8" | "9" => true
  | _ => false
  end%char.

Definition digit_value (c : ascii) : Z := Z.of_N (N_of_ascii c) - 48.

(** The double quote character, code unit 34. *)
Definition dquote : ascii := "034"%char.

(** The character class of the quote-stripping regular expression of
    [readCSV]: the double quote and the single quote. *)
Definition is_quote (c : ascii) : bool :=
  match c with
  | "034" | "'" => true
  | _ => false
  end%char.

(** [str.replace(/^\s+/, '')] *)
Fixpoint trim_left (s : string) : string :=
  match s with
  | EmptyString => EmptyString
  | String c s' => if is_space c then trim_left s' else s
  end.

(** [str.replace(/\s+$/, '')] *)
Fixpoint trim_right (s : string) : string :=
  match s with
  | EmptyString => EmptyString
  | String c s' =>
      match trim_right s' with
      | EmptyString => if is_space c then EmptyString else String c EmptyString
      | t => String c t
      end
  end.

(** [function trim(str) { return str.replace(/^\s+|\s+$/g, ''); }] *)
Definition trim (str : string) : string := trim_right (trim_left str).

(** The first alternative of the quote-stripping expression: one quote
    character at the very start of the column. *)
Definition strip_leading_quote (s : string) : string :=
  match s with
  | String c s' => if is_quote c then s' else s
  | EmptyString => EmptyString
  end.

(** The second alternative: one quote character at the very end. *)
Fixpoint strip_trailing_quote (s : string) : string :=
  match s with
  | EmptyString => EmptyString
  | String c EmptyString => if is_quote c then EmptyString else s
  | String c s' => String c (strip_trailing_quote s')
  end.

(** [col.replace(re, '')] with the global quote-stripping expression [re]:
    the leading alternative is tried at offset 0 and the trailing one on
    what follows. *)
Definition strip_quotes (col : string) : string :=
  strip_trailing_quote (strip_leading_quote col).

(** [s.split(sep)] for a one-character separator. *)
Fixpoint split (sep : ascii) (s : string) : list string :=
  match s with
  | EmptyString => [EmptyString]
  | String c s' =>
      if Ascii.eqb c sep then EmptyString :: split sep s'
      else match split sep s' with
           | h :: t => String c h :: t
           | [] => [String c EmptyString]
           end
  end.

(** The longest run of decimal digits at the head of [s], and the rest. *)
Fixpoint span_digits (s : string) : string * string :=
  match s with
  | String c s' =>
      if is_digit c
      then let (ds, rest) := span_digits s' in (String c ds, rest)
      else (EmptyString, s)
  | EmptyString => (EmptyString, EmptyString)
  end.

(** The mathematical value of a run of decimal digits, most significant
    first, continuing from [acc]. *)
Fixpoint digits_value (acc : Z) (ds : string) : Z :=
  match ds with
  | EmptyString => acc
  | String c ds' => digits_value (10 * acc + digit_value c) ds'
  end.

(** An optional sign character. *)
Definition take_sign (s : string) : bool * string :=
  match s with
  | String "-" r => (true, r)
  | String "+" r => (false, r)
  | _ => (false, s)
  end.

End JSString.

Import JSString.

(** ** Numbers *)

Module JSNumber.

Definition prec : Z := 53.
Definition emax : Z := 1024.

(** A JavaScript Number. *)
Definition number : Type := spec_float.

Definition NaN : number := S754_nan.

Definition isNaN (x : number) : bool :=
  match x with
  | S754_nan => true
  | _ => false
  end.

Definition mul (x y : number) : number := SFmul prec emax x y.
Definition add (x y : number) : number := SFadd prec emax x y.

(** The Number value of [(-1)^neg * m * 10^e] for a natural [m]: the
    binary64 value nearest to it, ties to even. *)
Definition to_number (neg : bool) (m : Z) (e : Z) : number :=
  match m with
  | Zpos p =>
      if 0 <=? e
      then binary_round prec emax neg (p * Z.to_pos (10 ^ e)) 0
      else SFdiv prec emax (S754_finite neg p 0)
                           (S754_finite false (Z.to_pos (10 ^ (- e))) 0)
  | _ => S754_zero neg
  end.

(** The Number value of an integer literal of the script. *)
Definition of_Z (z : Z) : number := to_number (z <? 0) (Z.abs z) 0.

(** The exponent part [[eE][+-]?digits] at the head of [s], when there is
    one; otherwise exponent 0 and nothing consumed. *)
Definition scan_exponent (s : string) : Z * string :=
  match s with
  | String c r =>
      if (Ascii.eqb c "e" || Ascii.eqb c "E")%bool
      then let (neg, r1) := take_sign r in
           let (ds, rest) := span_digits r1 in
           match ds with
           | EmptyString => (0, s)
           | _ => ((if neg then - digits_value 0 ds else digits_value 0 ds), rest)
           end
      else (0, s)
  | EmptyString => (0, s)
  end.

(** The digits before and after the decimal point at the head of [s], and
    what follows them: [digits], [digits.], [digits.digits] or [.digits]. *)
Definition scan_mantissa (s : string) : string * string * string :=
  let (ip, s3) := span_digits s in
  match s3 with
  | String c r =>
      if Ascii.eqb c "."
      then let (fp, s4) := span_digits r in (ip, fp, s4)
      else (ip, EmptyString, s3)
  | EmptyString => (ip, EmptyString, s3)
  end.

(** [parseFloat(s)]: leading white space is skipped, then the longest
    prefix that is a StrDecimalLiteral is converted; the characters after it
    are ignored, and without such a prefix the result is NaN. *)
Definition parseFloat (s : string) : number :=
  let (neg, s2) := take_sign (trim_left s) in
  if prefix "Infinity" s2 then S754_infinity neg else
  let '(ip, fp, s4) := scan_mantissa s2 in
  match ip ++ fp with
  | EmptyString => NaN
  | ds => to_number neg (digits_value 0 ds)
                    (fst (scan_exponent s4) - Z.of_nat (String.length fp))
  end.

(** [parseInt(s, 10)]: leading white space is skipped, then an optional sign
    and the longest run of decimal digits are converted; NaN without a
    digit. *)
Definition parseInt10 (s : string) : number :=
  let (neg, s2) := take_sign (trim_left s) in
  let (ds, _) := span_digits s2 in
  match ds with
  | EmptyString => NaN
  | _ => to_number neg (digits_value 0 ds) 0
  end.

End JSNumber.

Import JSNumber.

(** ** Errors, log lines and the effect monad *)

(** The exceptions of the script, one constructor per [throw new Error(...)]
    site, named after the error kinds of the specification; [HostError] is
    an exception raised by the host while a marker is created or named. *)
Inductive JSError : Type :=
| FileDoesNotExist (filePath : string)
| HeaderInvalid
| NoValidMarkers
| InvalidTimeFormat (timeStr : string)
| NoActiveSequence
| NoFileSelected
| EmptyData
| HostError.

(** The second argument of [log]. *)
Inductive LogType : Type := info | warning | error | debug.

(** The text handed to [log], kept structured: each constructor is one
    message of the script with the values it concatenates. *)
Inductive Message : Type :=
| MsgSelectedFile (fsName : string)
| MsgProcessingFile (filePath : string)
| MsgMissingColumns (lineNumber : Z)
| MsgEmptyTimestamp (row : Z)
| MsgEmptyComment (row : Z)
| MsgInsertFailed (row : Z) (err : JSError)
| MsgSkipped (skippedCount : Z)
| MsgImported (inserted skipped : Z)
| MsgError (err : JSError).

(** What [new File(filePath)] gives access to: [file.exists] and the text
    that [file.readln()] goes through. *)
Record File : Type := mkFile { file_exists : bool; file_text : string }.

(** The surroundings of one run that the script only reads: the answer of
    [File.openDialog] ([None] is [null]) and the files on disk. *)
Record Env : Type := mkEnv {
  openDialog : option string;
  files : string -> File
}.

(** One entry of [markers]. *)
Record Marker : Type := mkMarker { timestamp : string; comment : string }.

(** The value returned by [insertMarkers]. *)
Record ImportResult : Type := mkResult { inserted : Z; skipped : Z }.

(** A JavaScript completion: a value or a thrown exception. *)
Inductive completion (A : Type) : Type :=
| Return (a : A)
| Throw (e : JSError).
Arguments Return {A} a.
Arguments Throw {A} e.

(** [CONFIG.showDebugInfo] *)
Definition CONFIG_showDebugInfo : bool := false.

(** The lines that successive [file.readln()] calls return until [file.eof]
    holds, for a text whose lines end in LF. *)
Fixpoint file_lines (text : string) : list string :=
  match text with
  | EmptyString => []
  | String c r =>
      if Ascii.eqb c "010" then EmptyString :: file_lines r
      else match file_lines r with
           | [] => [String c EmptyString]
           | l :: ls => String c l :: ls
           end
  end.

(** [!v] for a value that is a string or [undefined] ([None]). *)
Definition falsy (v : option string) : bool :=
  match v with
  | None => true
  | Some s => String.eqb s ""
  end.

(** ** TimeParser *)

(** [function parseTimeString(timeStr)] *)
Definition parseTimeString (timeStr : string) : completion number :=
  let timeStr := trim timeStr in
  let seconds := parseFloat timeStr in
  if negb (isNaN seconds) then Return seconds else
  match split ":" timeStr with
  | [p0; p1; p2] =>
      let hours := parseInt10 p0 in
      let minutes := parseInt10 p1 in
      let secs := parseFloat p2 in
      if (negb (isNaN hours) && negb (isNaN minutes) && negb (isNaN secs))%bool
      then Return (add (add (mul hours (of_Z 3600)) (mul minutes (of_Z 60))) secs)
      else Throw (InvalidTimeFormat timeStr)
  | _ => Throw (InvalidTimeFormat timeStr)
  end.

(** One invocation of the marker sink: its arguments and whether it
    succeeded. *)
Record Call : Type := mkCall { call_time : number; call_label : string; call_ok : bool }.

(** ** The script over a host *)

Section Script.

(** The state of the active sequence of the host. *)
Variable Seq : Type.

(** The marker sink: [placeMarker seq time name] stands for the two host
    statements [var markerObj = sequence.markers.createMarker(time);
    markerObj.name = marker.comment;]. It returns the sequence afterwards
    and whether the statements completed ([false]: the host threw). *)
Variable placeMarker : Seq -> number -> string -> Seq * bool.

(** What a run can change: the console written by [$.writeln], the host's
    [app.project.activeSequence] ([None] is [null]), and the invocations of
    the sink so far. *)
Record World : Type := mkWorld {
  console : list (LogType * Message);
  activeSequence : option Seq;
  calls : list Call
}.

Definition M (A : Type) : Type := World -> completion A * World.

Definition ret {A} (a : A) : M A := fun w => (Return a, w).

Definition throw {A} (e : JSError) : M A := fun w => (Throw e, w).

Definition bind {A B} (m : M A) (k : A -> M B) : M B :=
  fun w => match m w with
           | (Return a, w') => k a w'
           | (Throw e, w') => (Throw e, w')
           end.

(** [try { m } catch (error) { h error }] *)
Definition try_catch {A} (m : M A) (h : JSError -> M A) : M A :=
  fun w => match m w with
           | (Return a, w') => (Return a, w')
           | (Throw e, w') => h e w'
           end.

Notation "x <- m ;; k" := (bind m (fun x => k))
  (at level 61, m at next level, right associativity).
Notation "m ;; k" := (bind m (fun _ => k))
  (at level 61, right associativity).

(** [function log(message, type)]: a debug message is dropped unless
    [CONFIG.showDebugInfo]; the prefix written before the message is the
    [LogType] of the entry. *)
Definition log (message : Message) (type : LogType) : M unit :=
  fun w =>
    match type with
    | debug =>
        if negb CONFIG_showDebugInfo then (Return tt, w)
        else (Return tt, mkWorld (console w ++ [(type, message)]) (activeSequence w) (calls w))
    | _ => (Return tt, mkWorld (console w ++ [(type, message)]) (activeSequence w) (calls w))
    end.

(** *** CsvReader *)

(** The callback of [line.split(',').map(...)]. *)
Definition clean_column (col : string) : string := trim (strip_quotes col).

(** The body of [while (!file.eof)] in [readCSV], over the lines still to
    be read. *)
Fixpoint readCSV_loop (lines : list string) (isFirstLine : bool) (lineNumber : Z)
         (data : list (list string)) : M (list (list string)) :=
  match lines with
  | [] => ret data
  | line :: rest =>
      let lineNumber := lineNumber + 1 in
      if (String.eqb line "" || String.eqb (trim line) "")%bool
      then readCSV_loop rest isFirstLine lineNumber data
      else
        let columns := map clean_column (split "," line) in
        if isFirstLine then
          if Z.of_nat (List.length columns) <? 2 then throw HeaderInvalid
          else readCSV_loop rest false lineNumber data
        else if Z.of_nat (List.length columns) <? 2 then
          log (MsgMissingColumns lineNumber) warning ;;
          readCSV_loop rest isFirstLine lineNumber data
        else readCSV_loop rest isFirstLine lineNumber (data ++ [columns])
  end.

(** [function readCSV(filePath)]; the [finally] clause closes the file on
    every path and changes nothing that is modelled. *)
Definition readCSV (env : Env) (filePath : string) : M (list (list string)) :=
  let file := files env filePath in
  if negb (file_exists file) then throw (FileDoesNotExist filePath)
  else readCSV_loop (file_lines (file_text file)) true 0 [].

(** *** MarkerRowParser *)

(** The [for] loop of [parseCSVData], from index [i] on. *)
Fixpoint parseCSVData_loop (data : list (list string)) (i : Z)
         (markers : list Marker) : M (list Marker) :=
  match data with
  | [] => ret markers
  | row :: rest =>
      let timestamp := nth_error row 0 in
      let comment := nth_error row 1 in
      if falsy timestamp then
        log (MsgEmptyTimestamp (i + 2)) warning ;;
        parseCSVData_loop rest (i + 1) markers
      else if falsy comment then
        log (MsgEmptyComment (i + 2)) warning ;;
        parseCSVData_loop rest (i + 1) markers
      else
        parseCSVData_loop rest (i + 1)
          (markers ++ [mkMarker (match timestamp with Some t => t | None => "" end)
                                (match comment with Some c => c | None => "" end)])
  end.

(** [function parseCSVData(data)] *)
Definition parseCSVData (data : list (list string)) : M (list Marker) :=
  markers <- parseCSVData_loop data 0 [] ;;
  if Z.of_nat (List.length markers) =? 0 then throw NoValidMarkers
  else ret markers.

(** *** ImportPipeline *)

(** The two host statements of the [try] block of [insertMarkers], acting
    on the sequence that the variable [sequence] refers to and recorded in
    [calls]; a failure of the host is thrown as [HostError]. *)
Definition createNamedMarker (time : number) (name : string) : M unit :=
  fun w =>
    match activeSequence w with
    | Some sequence =>
        let (sequence', ok) := placeMarker sequence time name in
        let w' := mkWorld (console w) (Some sequence')
                          (calls w ++ [mkCall time name ok]) in
        if ok then (Return tt, w') else (Throw HostError, w')
    | None => (Throw HostError, w)
    end.

(** A pure completion as a computation of the monad. *)
Definition lift {A} (c : completion A) : M A := fun w => (c, w).

(** The [try]/[catch] statement of the loop body of [insertMarkers]:
    [true] when the [try] block completed (the branch of
    [insertedCount++]), [false] when the [catch] clause ran (the branch of
    [skippedCount++]). *)
Definition insertMarker (marker : Marker) (i : Z) : M bool :=
  try_catch
    (time <- lift (parseTimeString (timestamp marker)) ;;
     createNamedMarker time (comment marker) ;;
     ret true)
    (fun err => log (MsgInsertFailed (i + 2) err) warning ;; ret false).

(** The [for] loop of [insertMarkers], from index [i] on, and the
    statements after it. *)
Fixpoint insertMarkers_loop (markers : list Marker) (i : Z)
         (insertedCount skippedCount : Z) : M ImportResult :=
  match markers with
  | [] =>
      (if 0 <? skippedCount then log (MsgSkipped skippedCount) warning else ret tt) ;;
      ret (mkResult insertedCount skippedCount)
  | marker :: rest =>
      ok <- insertMarker marker i ;;
      if ok : bool
      then insertMarkers_loop rest (i + 1) (insertedCount + 1) skippedCount
      else insertMarkers_loop rest (i + 1) insertedCount (skippedCount + 1)
  end.

(** [function insertMarkers(markers)] *)
Definition insertMarkers (markers : list Marker) : M ImportResult :=
  fun w =>
    match activeSequence w with
    | None => throw NoActiveSequence w
    | Some _ => insertMarkers_loop markers 0 0 0 w
    end.

(** [function selectCSVFile()] *)
Definition selectCSVFile (env : Env) : M (option string) :=
  match openDialog env with
  | Some fsName => log (MsgSelectedFile fsName) debug ;; ret (Some fsName)
  | None => ret None
  end.

(** The [try] block of [main]: one run of the import pipeline. *)
Definition run (env : Env) : M ImportResult :=
  filePath <- selectCSVFile env ;;
  if falsy filePath then throw NoFileSelected else
  let filePath := match filePath with Some p => p | None => "" end in
  log (MsgProcessingFile filePath) info ;;
  data <- readCSV env filePath ;;
  if Z.of_nat (List.length data) =? 0 then throw EmptyData else
  markers <- parseCSVData data ;;
  result <- insertMarkers markers ;;
  log (MsgImported (inserted result) (skipped result)) info ;;
  ret result.

(** [function main()] *)
Definition main (env : Env) : M unit :=
  try_catch (run env ;; ret tt) (fun err => log (MsgError err) error).

End Script.

Arguments mkWorld {Seq} _ _ _.
Arguments console {Seq} _.
Arguments activeSequence {Seq} _.
Arguments calls {Seq} _.
Arguments ret {Seq A} _ _.
Arguments throw {Seq A} _ _.
Arguments bind {Seq A B} _ _ _.
Arguments try_catch {Seq A} _ _ _.
Arguments lift {Seq A} _ _.
Arguments log {Seq} _ _ _.
Arguments readCSV_loop {Seq} _ _ _ _ _.
Arguments readCSV {Seq} _ _ _.
Arguments parseCSVData_loop {Seq} _ _ _ _.
Arguments parseCSVData {Seq} _ _.
Arguments selectCSVFile {Seq} _ _.

(** ** The first script of the file

    The first of the two scripts in hockey_markers.jsx: the same [log],
    [trim] and [parseTimeString], and earlier versions of [readCSV],
    [parseCSVData], [insertMarkers], [selectCSVFile] and [main], which
    report to the user with [alert] and do not catch the failure of a
    single row. *)

Module FirstScript.

(** The text handed to [alert], kept structured. *)
Inductive Alert : Type :=
| AlertSkippingRow (row : list string)
| AlertInvalidTime (timestamp : string)
| AlertCsvData (data : list (list string))
| AlertFirstRow (row : list string)
| AlertCsvEmpty
| AlertInserted
| AlertError (err : JSError).

(** The [while] loop of [readCSV]: the first line is skipped whatever it
    is, and every later line that is not the empty string is split. *)
Fixpoint readCSV_loop (lines : list string) (isFirstLine : bool)
         (data : list (list string)) : list (list string) :=
  match lines with
  | [] => data
  | line :: rest =>
      if isFirstLine then readCSV_loop rest false data
      else if negb (String.eqb line "")
           then readCSV_loop rest isFirstLine (data ++ [split "," line])%list
           else readCSV_loop rest isFirstLine data
  end.

(** [function readCSV(filePath)] of the first script. *)
Definition readCSV (env : Env) (filePath : string)
  : completion (list (list string)) :=
  let file := files env filePath in
  if negb (file_exists file) then Throw (FileDoesNotExist filePath)
  else Return (readCSV_loop (file_lines (file_text file)) true []).

Section Script.

Variable Seq : Type.
Variable placeMarker : Seq -> number -> string -> Seq * bool.

(** What a run of the first script can change: the alerts shown, the
    host's active sequence, and the invocations of the sink so far. *)
Record World1 : Type := mkWorld1 {
  alerts : list Alert;
  sequence1 : option Seq;
  calls1 : list Call
}.

(** [alert(message)] *)
Definition alert (message : Alert) (w : World1) : World1 :=
  mkWorld1 (alerts w ++ [message])%list (sequence1 w) (calls1 w).

(** The [for] loop of [parseCSVData] of the first script. *)
Fixpoint parseCSVData_loop (data : list (list string)) (markers : list Marker)
         (w : World1) : list Marker * World1 :=
  match data with
  | [] => (markers, w)
  | row :: rest =>
      if 2 <=? Z.of_nat (List.length row) then
        let timestamp := trim (nth 0 row "") in
        let comment := trim (nth 1 row "") in
        parseCSVData_loop rest (markers ++ [mkMarker timestamp comment])%list w
      else
        parseCSVData_loop rest markers (alert (AlertSkippingRow row) w)
  end.

(** [function parseCSVData(data)] of the first script. *)
Definition parseCSVData (data : list (list string)) (w : World1)
  : list Marker * World1 :=
  parseCSVData_loop data [] w.

(** The [for] loop of [insertMarkers] of the first script: no [try], so a
    failure of the host ends the loop with its exception. *)
Fixpoint insertMarkers_loop (markers : list Marker) (w : World1)
  : completion unit * World1 :=
  match markers with
  | [] => (Return tt, w)
  | marker :: rest =>
      let time := parseFloat (timestamp marker) in
      if isNaN time then
        insertMarkers_loop rest (alert (AlertInvalidTime (timestamp marker)) w)
      else
        match sequence1 w with
        | Some sequence =>
            let (sequence', ok) := placeMarker sequence time (comment marker) in
            let w' := mkWorld1 (alerts w) (Some sequence')
                               (calls1 w ++ [mkCall time (comment marker) ok])%list in
            if ok then insertMarkers_loop rest w' else (Throw HostError, w')
        | None => (Throw HostError, w)
        end
  end.

(** [function insertMarkers(markers)] of the first script. *)
Definition insertMarkers (markers : list Marker) (w : World1)
  : completion unit * World1 :=
  match sequence1 w with
  | None => (Throw NoActiveSequence, w)
  | Some _ => insertMarkers_loop markers w
  end.

(** The [try] block of [main] of the first script. *)
Definition run (env : Env) (w : World1) : completion unit * World1 :=
  let filePath := openDialog env in
  if falsy filePath then (Throw NoFileSelected, w) else
  let filePath := match filePath with Some p => p | None => "" end in
  match readCSV env filePath with
  | Throw e => (Throw e, w)
  | Return data =>
      let w := alert (AlertCsvData data) w in
      let w := match data with
               | row :: _ => alert (AlertFirstRow row) w
               | [] => alert AlertCsvEmpty w
               end in
      let (markers, w) := parseCSVData data w in
      match insertMarkers markers w with
      | (Return _, w) => (Return tt, alert AlertInserted w)
      | (Throw e, w) => (Throw e, w)
      end
  end.

(** [function main()] of the first script. *)
Definition main (env : Env) (w : World1) : World1 :=
  match run env w with
  | (Return _, w') => w'
  | (Throw e, w') => alert (AlertError e) w'
  end.

End Script.

Arguments mkWorld1 {Seq} _ _ _.
Arguments alerts {Seq} _.
Arguments sequence1 {Seq} _.
Arguments calls1 {Seq} _.
Arguments alert {Seq} _ _.
Arguments parseCSVData_loop {Seq} _ _ _.
Arguments parseCSVData {Seq} _ _.

End FirstScript.

(** ** Decimal-number strings *)

Module Decimal.

Fixpoint all_digits (s : string) : bool :=
  match s with
  | EmptyString => true
  | String c r => is_digit c && all_digits r
  end.

(** An optional sign. *)
Inductive Sign : string -> Prop :=
| Sign_none : Sign ""
| Sign_plus : Sign "+"
| Sign_minus : Sign "-".

(** Digits with an optional fractional part, or a leading dot followed by
    digits. *)
Inductive Mantissa : string -> Prop :=
| Mant_int ip :
    ip <> "" -> all_digits ip = true -> Mantissa ip
| Mant_frac ip fp :
    all_digits ip = true -> all_digits fp = true -> ip ++ fp <> "" ->
    Mantissa (ip ++ String "." fp).

(** An optional exponent part. *)
Inductive ExponentPart : string -> Prop :=
| Exp_none : ExponentPart ""
| Exp_some c sg ds :
    c = "e"%char \/ c = "E"%char -> Sign sg -> ds <> "" -> all_digits ds = true ->
    ExponentPart (String c (sg ++ ds)).

(** A valid decimal-number string: optionally signed, optionally
    fractional, leading-dot forms allowed, with an optional exponent. *)
Inductive DecimalString : string -> Prop :=
| Decimal sg m ex :
    Sign sg -> Mantissa m -> ExponentPart ex -> DecimalString (sg ++ m ++ ex).

(** A character that can continue a decimal number: a digit, the decimal
    point or an exponent marker. *)
Definition numeric_char (c : ascii) : bool :=
  is_digit c || Ascii.eqb c "." || Ascii.eqb c "e" || Ascii.eqb c "E".

(** [r] is empty or starts with a non-numeric character. *)
Definition non_numeric_start (r : string) : bool :=
  match r with
  | EmptyString => true
  | String c _ => negb (numeric_char c)
  end.

(** [r] is empty or starts with neither a digit nor the decimal point. *)
Definition ends_mantissa (r : string) : bool :=
  match r with
  | EmptyString => true
  | String c _ => negb (is_digit c) && negb (Ascii.eqb c ".")
  end.

(** [r] is empty or starts with a character that is not a digit. *)
Definition ends_digits (r : string) : bool :=
  match r with
  | EmptyString => true
  | String c _ => negb (is_digit c)
  end.

(** The first character of a mantissa is a digit or the decimal point. *)
Definition mantissa_start (c : ascii) : Prop := is_digit c = true \/ c = "."%char.

(** No character of [s] is white space. *)
Fixpoint no_space (s : string) : bool :=
  match s with
  | EmptyString => true
  | String c r => negb (is_space c) && no_space r
  end.

End Decimal.

Import Decimal.

(** ** Vocabulary of the pipeline properties *)

(** The arguments of one sink invocation. *)
Definition call_args (c : Call) : number * string := (call_time c, call_label c).

(** The sink arguments of the records whose timestamp parses, in order. *)
Fixpoint parsed_args (markers : list Marker) : list (number * string) :=
  match markers with
  | [] => []
  | m :: rest =>
      match parseTimeString (timestamp m) with
      | Return t => (t, comment m) :: parsed_args rest
      | Throw _ => parsed_args rest
      end
  end.

(** The number of records whose timestamp does not parse. *)
Fixpoint unparseable (markers : list Marker) : nat :=
  match markers with
  | [] => 0%nat
  | m :: rest =>
      match parseTimeString (timestamp m) with
      | Return _ => unparseable rest
      | Throw _ => S (unparseable rest)
      end
  end.

Definition count_ok (cs : list Call) : nat := List.length (filter call_ok cs).

Definition count_failed (cs : list Call) : nat :=
  List.length (filter (fun c => negb (call_ok c)) cs).

Definition isSome {A} (o : option A) : bool :=
  match o with Some _ => true | None => false end.

(** The call recorded for a sink invocation that succeeded. *)
Definition successful_call (a : number * string) : Call :=
  mkCall (fst a) (snd a) true.

(** [oblivious Seq active m]: started in any world whose sequence is
    present exactly when [active] holds, [m] completes in the same way,
    adds the same sink invocations, and leaves the sequence present or
    absent as it was. *)
Definition oblivious (Seq : Type) (active : bool) {A : Type}
           (m : World Seq -> completion A * World Seq) : Prop :=
  exists (c : completion A) (new : list Call),
    forall w, isSome (activeSequence w) = active ->
      fst (m w) = c /\
      calls (snd (m w)) = (calls w ++ new)%list /\
      isSome (activeSequence (snd (m w))) = active.

(** ** Concrete sinks, files and environments *)

(** Two sinks for concrete runs: one that keeps every marker it is given,
    one that rejects every marker. *)
Definition recordingSink (seq : list (number * string)) (time : number)
           (name : string) : list (number * string) * bool :=
  ((seq ++ [(time, name)])%list, true).

Definition rejectingSink (seq : unit) (time : number) (name : string)
  : unit * bool := (seq, false).

(** A world with an empty console, an active sequence without markers and
    no sink invocation yet. *)
Definition empty_world : World (list (number * string)) :=
  mkWorld [] (Some []) [].

(** The line feed character and the example file of the specification. *)
Definition LF : string := String "010" "".

Definition example_text : string :=
  ("t,c" ++ LF ++ "10,Goal" ++ LF ++ ",Empty" ++ LF ++ "20,Save" ++ LF)%string.

Definition header_only_text : string := ("t,c" ++ LF)%string.

Definition example_env : Env :=
  mkEnv (Some "markers.csv"%string) (fun _ => mkFile true example_text).

Definition header_only_env : Env :=
  mkEnv (Some "markers.csv"%string) (fun _ => mkFile true header_only_text).

(** The cleaning of a field in the order of the specification: trim first,
    then strip the quotes. *)
Definition clean_column_trim_first (col : string) : string :=
  strip_quotes (trim col).

(** The quoted example line, with its header. *)
Definition quoted_text : string :=
  ("t,c" ++ LF ++
   String dquote ("5" ++ String dquote ("," ++ String dquote ("Nice shot" ++ String dquote LF))))%string.

Definition quoted_env : Env :=
  mkEnv (Some "markers.csv"%string) (fun _ => mkFile true quoted_text).

(** ** Vocabulary of the further properties *)

(** Every character of [s] is white space. *)
Fixpoint all_space (s : string) : bool :=
  match s with
  | EmptyString => true
  | String c r => is_space c && all_space r
  end.

(** The first, respectively the last, character of [s] is white space. *)
Definition starts_with_space (s : string) : bool :=
  match s with
  | EmptyString => false
  | String c _ => is_space c
  end.

Fixpoint ends_with_space (s : string) : bool :=
  match s with
  | EmptyString => false
  | String c EmptyString => is_space c
  | String _ r => ends_with_space r
  end.

(** The test [!line || trim(line) === ""] of [readCSV]. *)
Definition blank_line (line : string) : bool :=
  (String.eqb line "" || String.eqb (trim line) "")%bool.

(** The value of the variable [columns] of [readCSV] for a line. *)
Definition columns_of (line : string) : list string :=
  map clean_column (split "," line).

(** The lines that [readCSV] pushes onto [data] once the header is past:
    not blank, and at least two columns. *)
Definition data_line (line : string) : bool :=
  negb (blank_line line) && (2 <=? Z.of_nat (List.length (columns_of line))).

(** The record that [parseCSVData] pushes for a row, if any. *)
Definition marker_of_row (row : list string) : option Marker :=
  match nth_error row 0, nth_error row 1 with
  | Some t, Some c =>
      if (String.eqb t "" || String.eqb c "")%bool then None
      else Some (mkMarker t c)
  | _, _ => None
  end.

Fixpoint rows_to_markers (data : list (list string)) : list Marker :=
  match data with
  | [] => []
  | row :: rest =>
      match marker_of_row row with
      | Some m => m :: rows_to_markers rest
      | None => rows_to_markers rest
      end
  end.

(** The fatal errors of a run. *)
Definition fatal (e : JSError) : Prop :=
  match e with
  | InvalidTimeFormat _ | HostError => False
  | _ => True
  end.

(** [log_only m]: [m] leaves the host sequence and the record of sink
    invocations as they are, and only appends lines to the console, none of
    them an error line. *)
Definition log_only {Seq A : Type} (m : World Seq -> completion A * World Seq)
  : Prop :=
  forall w,
    calls (snd (m w)) = calls w /\
    activeSequence (snd (m w)) = activeSequence w /\
    exists msgs,
      console (snd (m w)) = (console w ++ msgs)%list /\
      Forall (fun entry => fst entry <> error) msgs.

(** [log_grows m]: [m] only appends lines to the console, none of them an
    error line. *)
Definition log_grows {Seq A : Type} (m : World Seq -> completion A * World Seq)
  : Prop :=
  forall w,
    exists msgs,
      console (snd (m w)) = (console w ++ msgs)%list /\
      Forall (fun entry => fst entry <> error) msgs.

(** [throws_only P m]: every exception that [m] throws satisfies [P]. *)
Definition throws_only {Seq A : Type} (P : JSError -> Prop)
           (m : World Seq -> completion A * World Seq) : Prop :=
  forall w e, fst (m w) = Throw e -> P e.

(** The sequence after the sink was invoked with each pair of [args] in
    turn, starting from [seq]. *)
Definition place_all {Seq : Type}
           (placeMarker : Seq -> number -> string -> Seq * bool)
           (args : list (number * string)) (seq : Seq) : Seq :=
  fold_left (fun s a => fst (placeMarker s (fst a) (snd a))) args seq.

(** [parseFloat] of the timestamp of the record is a number. *)
Definition numeric_timestamp (m : Marker) : bool :=
  negb (isNaN (parseFloat (timestamp m))).

(** [fails_safely m]: when [m] throws, the exception is a fatal error of
    the run, and the host sequence and the record of sink invocations are
    as they were before [m]. *)
Definition fails_safely {Seq A : Type}
           (m : World Seq -> completion A * World Seq) : Prop :=
  forall w e,
    fst (m w) = Throw e ->
    fatal e /\ calls (snd (m w)) = calls w /\
    activeSequence (snd (m w)) = activeSequence w.

(** The console of [w'] is the console of [w] followed by lines that are
    not error lines. *)
Definition console_extends {Seq : Type} (w w' : World Seq) : Prop :=
  exists msgs,
    console w' = (console w ++ msgs)%list /\
    Forall (fun entry => fst entry <> error) msgs.

(** The sink arguments of the records whose timestamp [parseFloat] turns
    into a number, in order. *)
Definition numeric_args (markers : list Marker) : list (number * string) :=
  map (fun m => (parseFloat (timestamp m), comment m))
      (filter numeric_timestamp markers).

(** The record has a timestamp and a comment that are not empty. *)
Definition complete_marker (m : Marker) : bool :=
  negb (String.eqb (timestamp m) "") && negb (String.eqb (comment m) "").

(** The number of occurrences of the character [c] in [s]. *)
Fixpoint count_char (c : ascii) (s : string) : nat :=
  match s with
  | EmptyString => 0%nat
  | String x r => if Ascii.eqb x c then S (count_char c r) else count_char c r
  end.

(** * Properties *)

(** ** Rounding never produces NaN *)

Module RoundingFacts.

Lemma shr_1_nonneg (mrs : shr_record) :
  0 <= shr_m mrs -> 0 <= shr_m (shr_1 mrs).
Proof.
  destruct mrs as [m r s]; simpl.
  destruct m as [|p|p]; [ | destruct p | destruct p ]; simpl; lia.
Qed.

Lemma iter_shr_1_nonneg (p : positive) :
  forall mrs, 0 <= shr_m mrs -> 0 <= shr_m (iter_pos shr_1 p mrs).
Proof.
  induction p as [p IH|p IH|]; intros mrs H; simpl.
  - apply IH, IH, shr_1_nonneg, H.
  - apply IH, IH, H.
  - apply shr_1_nonneg, H.
Qed.

Lemma shr_nonneg (mrs : shr_record) (e n : Z) :
  0 <= shr_m mrs -> 0 <= shr_m (fst (shr mrs e n)).
Proof.
  intros H. unfold shr. destruct n; simpl; auto using iter_shr_1_nonneg.
Qed.

Lemma shr_fexp_nonneg (m e : Z) (l : location) :
  0 <= m -> 0 <= shr_m (fst (shr_fexp prec emax m e l)).
Proof.
  intros H. unfold shr_fexp. apply shr_nonneg.
  destruct l as [|[]]; simpl; exact H.
Qed.

Lemma round_nearest_even_nonneg (m : Z) (l : location) :
  0 <= m -> 0 <= round_nearest_even m l.
Proof.
  intros H. destruct l as [|[]]; simpl; try lia.
  destruct (Z.even m); lia.
Qed.

Lemma binary_round_aux_not_nan (s : bool) (m e : Z) (l : location) :
  0 <= m -> isNaN (binary_round_aux prec emax s m e l) = false.
Proof.
  intros H. unfold binary_round_aux.
  pose proof (shr_fexp_nonneg m e l H) as H1.
  destruct (shr_fexp prec emax m e l) as [mrs' e'] eqn:E1. simpl in H1.
  pose proof (shr_fexp_nonneg _ e' loc_Exact
                (round_nearest_even_nonneg _ (loc_of_shr_record mrs') H1)) as H2.
  destruct (shr_fexp prec emax _ e' loc_Exact) as [mrs'' e''] eqn:E2. simpl in H2.
  destruct (shr_m mrs'') as [|q|q]; try reflexivity.
  - destruct (e'' <=? emax - prec)%Z; reflexivity.
  - lia.
Qed.

Lemma binary_round_not_nan (s : bool) (m : positive) (e : Z) :
  isNaN (binary_round prec emax s m e) = false.
Proof.
  unfold binary_round.
  destruct (shl_align m e _) as [mz ez].
  apply binary_round_aux_not_nan. lia.
Qed.

Lemma SFdiv_finite_not_nan (sx sy : bool) (mx my : positive) (ex ey : Z) :
  isNaN (SFdiv prec emax (S754_finite sx mx ex) (S754_finite sy my ey)) = false.
Proof.
  unfold SFdiv, SFdiv_core_binary.
  set (m' := match _ - _ - _ with Z0 => Z.pos mx | Z.pos _ => _ | Z.neg _ => 0 end).
  assert (Hm : 0 <= m').
  { subst m'. destruct (_ - _ - _) eqn:E; try lia.
    apply Z.shiftl_nonneg. lia. }
  assert (Hq : 0 <= m' / Z.pos my) by (apply Z.div_pos; lia).
  unfold Z.div in Hq.
  destruct (Z.div_eucl m' (Z.pos my)) as [q r].
  apply binary_round_aux_not_nan, Hq.
Qed.

(** Every converted literal is a number. *)
Lemma to_number_not_nan (neg : bool) (m e : Z) :
  isNaN (to_number neg m e) = false.
Proof.
  unfold to_number. destruct m; try reflexivity.
  destruct (0 <=? e).
  - apply binary_round_not_nan.
  - apply SFdiv_finite_not_nan.
Qed.

End RoundingFacts.


Module StringFacts.

Lemma append_assoc (a b c : string) : (a ++ b) ++ c = a ++ (b ++ c).
Proof. induction a as [|x a IH]; simpl; [reflexivity | now rewrite IH]. Qed.

Lemma append_nil_r (a : string) : a ++ "" = a.
Proof. induction a as [|x a IH]; simpl; [reflexivity | now rewrite IH]. Qed.

Lemma append_eq_nil (a b : string) : a ++ b = "" -> a = "" /\ b = "".
Proof. destruct a; simpl; [auto | discriminate]. Qed.

Lemma digit_not_space (c : ascii) : is_digit c = true -> is_space c = false.
Proof.
  destruct c as [[] [] [] [] [] [] [] []]; simpl; intros H;
    first [reflexivity | discriminate H].
Qed.

Lemma span_digits_app (ds r : string) :
  all_digits ds = true -> ends_digits r = true ->
  span_digits (ds ++ r) = (ds, r).
Proof.
  intros Hd Hr. induction ds as [|c ds IH]; simpl in *.
  - destruct r as [|c r]; simpl in *; [reflexivity|].
    destruct (is_digit c); [discriminate | reflexivity].
  - apply andb_true_iff in Hd as [Hc Hd].
    rewrite Hc, (IH Hd). reflexivity.
Qed.

End StringFacts.

(** ** The scanner of [parseFloat] on decimal-number strings *)

Module ParseFacts.

Import StringFacts RoundingFacts.

Lemma mantissa_head (m : string) :
  Mantissa m -> exists c m', m = String c m' /\ mantissa_start c.
Proof.
  intros [ip Hne Hd | ip fp Hi Hf Hne].
  - destruct ip as [|c ip]; [congruence|].
    simpl in Hd. apply andb_true_iff in Hd as [Hc _].
    exists c, ip. split; [reflexivity | now left].
  - destruct ip as [|c ip]; simpl.
    + exists "."%char, fp. split; [reflexivity | now right].
    + simpl in Hi. apply andb_true_iff in Hi as [Hc _].
      exists c, (ip ++ String "." fp). split; [reflexivity | now left].
Qed.

Lemma mantissa_start_scan (c : ascii) (rest : string) :
  mantissa_start c ->
  trim_left (String c rest) = String c rest /\
  take_sign (String c rest) = (false, String c rest) /\
  prefix "Infinity" (String c rest) = false.
Proof.
  intros [H | ->]; [| repeat split; reflexivity].
  destruct c as [[] [] [] [] [] [] [] []]; simpl in H;
    first [discriminate H | repeat split; reflexivity].
Qed.

Lemma digits_head_sign (ds r : string) :
  ds <> "" -> all_digits ds = true -> take_sign (ds ++ r) = (false, ds ++ r).
Proof.
  intros Hne Hd. destruct ds as [|c ds]; [congruence|].
  simpl in Hd. apply andb_true_iff in Hd as [Hc _].
  apply (mantissa_start_scan c (ds ++ r)). now left.
Qed.

Lemma scan_mantissa_app (m : string) :
  Mantissa m ->
  exists ip fp, ip ++ fp <> "" /\
    forall t, ends_mantissa t = true -> scan_mantissa (m ++ t) = (ip, fp, t).
Proof.
  intros [ip Hne Hd | ip fp Hi Hf Hne].
  - exists ip, "". split.
    + rewrite append_nil_r. exact Hne.
    + intros t Ht. unfold scan_mantissa.
      rewrite (span_digits_app ip t Hd).
      * destruct t as [|c t]; [reflexivity|].
        simpl in Ht. apply andb_true_iff in Ht as [_ Hdot].
        apply negb_true_iff in Hdot. now rewrite Hdot.
      * destruct t as [|c t]; [reflexivity|].
        simpl in *. now apply andb_true_iff in Ht as [Hc _].
  - exists ip, fp. split; [exact Hne|].
    intros t Ht. unfold scan_mantissa.
    rewrite append_assoc. simpl.
    rewrite (span_digits_app ip (String "." (fp ++ t)) Hi eq_refl).
    simpl. rewrite (span_digits_app fp t Hf); [reflexivity|].
    destruct t as [|c t]; [reflexivity|].
    simpl in *. now apply andb_true_iff in Ht as [Hc _].
Qed.

Lemma scan_exponent_app (ex : string) :
  ExponentPart ex ->
  exists z, forall r, non_numeric_start r = true ->
    fst (scan_exponent (ex ++ r)) = z.
Proof.
  intros [| c sg ds Hc Hsg Hne Hd].
  - exists 0. intros r Hr. destruct r as [|c r]; [reflexivity|].
    simpl in *. unfold numeric_char in Hr.
    apply negb_true_iff in Hr.
    apply orb_false_iff in Hr as [Hr HE].
    apply orb_false_iff in Hr as [Hr He].
    now rewrite He, HE.
  - assert (Hend : forall r, non_numeric_start r = true -> ends_digits r = true).
    { intros [|x r]; [reflexivity|]. simpl. unfold numeric_char.
      intros Hr. apply negb_true_iff in Hr.
      apply orb_false_iff in Hr as [Hr _].
      apply orb_false_iff in Hr as [Hr _].
      apply orb_false_iff in Hr as [Hr _].
      now rewrite Hr. }
    assert (Hce : (Ascii.eqb c "e" || Ascii.eqb c "E")%bool = true)
      by (destruct Hc as [-> | ->]; reflexivity).
    destruct ds as [|d ds]; [congruence|].
    destruct Hsg.
    + exists (digits_value 0 (String d ds)). intros r Hr.
      cbn [append scan_exponent]. rewrite Hce.
      change (String d (ds ++ r)) with (String d ds ++ r).
      rewrite (digits_head_sign (String d ds) r Hne Hd).
      rewrite (span_digits_app _ r Hd (Hend r Hr)). reflexivity.
    + exists (digits_value 0 (String d ds)). intros r Hr.
      cbn [append scan_exponent take_sign]. rewrite Hce.
      change (String d (ds ++ r)) with (String d ds ++ r).
      rewrite (span_digits_app _ r Hd (Hend r Hr)). reflexivity.
    + exists (- digits_value 0 (String d ds)). intros r Hr.
      cbn [append scan_exponent take_sign]. rewrite Hce.
      change (String d (ds ++ r)) with (String d ds ++ r).
      rewrite (span_digits_app _ r Hd (Hend r Hr)). reflexivity.
Qed.

Lemma exponent_then_rest_ends_mantissa (ex r : string) :
  ExponentPart ex -> non_numeric_start r = true -> ends_mantissa (ex ++ r) = true.
Proof.
  intros [| c sg ds Hc Hsg Hne Hd] Hr.
  - destruct r as [|x r]; [reflexivity|]. simpl in *.
    unfold numeric_char in Hr. apply negb_true_iff in Hr.
    apply orb_false_iff in Hr as [Hr _].
    apply orb_false_iff in Hr as [Hr _].
    apply orb_false_iff in Hr as [Hr Hdot].
    now rewrite Hr, Hdot.
  - destruct Hc as [-> | ->]; reflexivity.
Qed.

End ParseFacts.

Module ParseFloatFacts.

Import StringFacts RoundingFacts ParseFacts.

Lemma match_nonempty {A} (s : string) (a : A) (f : string -> A) :
  s <> "" ->
  match s with EmptyString => a | String c r => f (String c r) end = f s.
Proof. destruct s; [congruence | reflexivity]. Qed.

(** On a decimal-number string followed by anything that does not start
    with a numeric character, [parseFloat] converts the decimal-number
    string alone, and the result is a number. *)
Lemma parseFloat_decimal_value (p : string) :
  DecimalString p ->
  exists v, isNaN v = false /\
    forall r, non_numeric_start r = true -> parseFloat (p ++ r) = v.
Proof.
  intros [sg m ex Hsg Hm Hex].
  destruct (scan_mantissa_app m Hm) as (ip & fp & Hne & Hscan).
  destruct (scan_exponent_app ex Hex) as (z & Hz).
  destruct (mantissa_head m Hm) as (c & m' & -> & Hc).
  assert (Hbody : forall neg r, non_numeric_start r = true ->
            (let '(ip, fp, s4) := scan_mantissa (String c m' ++ ex ++ r) in
             match ip ++ fp with
             | EmptyString => NaN
             | String a b =>
                 to_number neg (digits_value 0 (String a b))
                   (fst (scan_exponent s4) - Z.of_nat (String.length fp))
             end)
            = to_number neg (digits_value 0 (ip ++ fp))
                        (z - Z.of_nat (String.length fp))).
  { intros neg r Hr.
    rewrite (Hscan (ex ++ r) (exponent_then_rest_ends_mantissa ex r Hex Hr)).
    rewrite (Hz r Hr).
    apply (match_nonempty (ip ++ fp) NaN
             (fun ds => to_number neg (digits_value 0 ds)
                          (z - Z.of_nat (String.length fp))) Hne). }
  destruct Hsg.
  - exists (to_number false (digits_value 0 (ip ++ fp))
                      (z - Z.of_nat (String.length fp))).
    split; [apply to_number_not_nan|].
    intros r Hr. specialize (Hbody false r Hr).
    rewrite !append_assoc.
    change ("" ++ String c m' ++ ex ++ r) with (String c (m' ++ ex ++ r)) in *.
    unfold parseFloat.
    destruct (mantissa_start_scan c (m' ++ ex ++ r) Hc) as (-> & -> & ->).
    exact Hbody.
  - exists (to_number false (digits_value 0 (ip ++ fp))
                      (z - Z.of_nat (String.length fp))).
    split; [apply to_number_not_nan|].
    intros r Hr. specialize (Hbody false r Hr).
    rewrite !append_assoc.
    change ("+" ++ String c m' ++ ex ++ r)
      with (String "+" (String c (m' ++ ex ++ r))) in *.
    unfold parseFloat. cbn [trim_left is_space take_sign].
    destruct (mantissa_start_scan c (m' ++ ex ++ r) Hc) as (_ & _ & ->).
    exact Hbody.
  - exists (to_number true (digits_value 0 (ip ++ fp))
                      (z - Z.of_nat (String.length fp))).
    split; [apply to_number_not_nan|].
    intros r Hr. specialize (Hbody true r Hr).
    rewrite !append_assoc.
    change ("-" ++ String c m' ++ ex ++ r)
      with (String "-" (String c (m' ++ ex ++ r))) in *.
    unfold parseFloat. cbn [trim_left is_space take_sign].
    destruct (mantissa_start_scan c (m' ++ ex ++ r) Hc) as (_ & _ & ->).
    exact Hbody.
Qed.

Lemma parseFloat_decimal_not_nan (p : string) :
  DecimalString p -> isNaN (parseFloat p) = false.
Proof.
  intros Hp. destruct (parseFloat_decimal_value p Hp) as (v & Hv & H).
  rewrite <- (append_nil_r p), (H "" eq_refl). exact Hv.
Qed.

Lemma parseFloat_decimal_app (p r : string) :
  DecimalString p -> non_numeric_start r = true ->
  parseFloat (p ++ r) = parseFloat p.
Proof.
  intros Hp Hr. destruct (parseFloat_decimal_value p Hp) as (v & Hv & H).
  rewrite (H r Hr). rewrite <- (append_nil_r p) at 1. now rewrite (H "" eq_refl).
Qed.

End ParseFloatFacts.

(** ** Trimming *)

Module TrimFacts.

Import StringFacts ParseFacts.

Lemma no_space_app (a b : string) :
  no_space (a ++ b) = (no_space a && no_space b)%bool.
Proof.
  induction a as [|c a IH]; simpl; [reflexivity|].
  now rewrite IH, andb_assoc.
Qed.

Lemma digits_no_space (ds : string) : all_digits ds = true -> no_space ds = true.
Proof.
  induction ds as [|c ds IH]; simpl; [reflexivity|].
  intros H. apply andb_true_iff in H as [Hc Hd].
  now rewrite (digit_not_space c Hc), IH.
Qed.

Lemma sign_no_space (sg : string) : Sign sg -> no_space sg = true.
Proof. intros []; reflexivity. Qed.

Lemma decimal_no_space (p : string) : DecimalString p -> no_space p = true.
Proof.
  intros [sg m ex Hsg Hm Hex].
  rewrite !no_space_app, (sign_no_space sg Hsg). simpl.
  apply andb_true_iff. split.
  - destruct Hm as [ip _ Hd | ip fp Hi Hf _].
    + now apply digits_no_space.
    + rewrite no_space_app. simpl.
      now rewrite (digits_no_space ip Hi), (digits_no_space fp Hf).
  - destruct Hex as [| c sg' ds Hc Hsg' _ Hd]; [reflexivity|].
    simpl. rewrite no_space_app, (sign_no_space sg' Hsg'), (digits_no_space ds Hd).
    destruct Hc as [-> | ->]; reflexivity.
Qed.

Lemma decimal_nonempty (p : string) : DecimalString p -> p <> "".
Proof.
  intros [sg m ex Hsg Hm Hex] H.
  apply append_eq_nil in H as [_ H]. apply append_eq_nil in H as [H _].
  destruct (mantissa_head m Hm) as (c & m' & -> & _). discriminate H.
Qed.

Lemma trim_left_app_no_space (p r : string) :
  p <> "" -> no_space p = true -> trim_left (p ++ r) = p ++ r.
Proof.
  destruct p as [|c p]; [congruence|]. simpl. intros _ H.
  apply andb_true_iff in H as [Hc _].
  apply negb_true_iff in Hc. now rewrite Hc.
Qed.

Lemma trim_right_app_no_space (p r : string) :
  no_space p = true -> trim_right (p ++ r) = p ++ trim_right r.
Proof.
  induction p as [|c p IH]; simpl; [reflexivity|].
  intros H. apply andb_true_iff in H as [Hc Hp].
  apply negb_true_iff in Hc. rewrite (IH Hp), Hc.
  destruct (p ++ trim_right r); reflexivity.
Qed.

(** Trimming keeps a non-numeric first character, or leaves nothing. *)
Lemma non_numeric_start_trim_right (r : string) :
  non_numeric_start r = true -> non_numeric_start (trim_right r) = true.
Proof.
  destruct r as [|c r]; simpl; [reflexivity|].
  intros H. destruct (trim_right r); [destruct (is_space c)|]; simpl; auto.
Qed.

Lemma trim_decimal_app (p r : string) :
  DecimalString p -> trim (p ++ r) = p ++ trim_right r.
Proof.
  intros Hp. unfold trim.
  rewrite (trim_left_app_no_space p r (decimal_nonempty p Hp) (decimal_no_space p Hp)).
  apply trim_right_app_no_space, decimal_no_space, Hp.
Qed.

Lemma trim_decimal (p : string) : DecimalString p -> trim p = p.
Proof.
  intros Hp. rewrite <- (append_nil_r p) at 1.
  rewrite (trim_decimal_app p "" Hp). apply append_nil_r.
Qed.

End TrimFacts.

(** ** The HH:MM:SS branch of [parseTimeString] *)

Module ColonBranch.

Import StringFacts RoundingFacts ParseFacts.

Lemma split_head (sep : ascii) (s : string) :
  exists p0 rest u, split sep s = p0 :: rest /\ s = p0 ++ u.
Proof.
  induction s as [|c s (p0 & rest & u & Hs & Hu)]; simpl.
  - exists "", [], "". split; reflexivity.
  - destruct (Ascii.eqb c sep).
    + exists "", (split sep s), (String c s). split; reflexivity.
    + rewrite Hs. exists (String c p0), rest, u. split; [reflexivity|].
      simpl. now rewrite <- Hu.
Qed.

Lemma trim_left_app (a u : string) :
  trim_left a <> "" -> trim_left (a ++ u) = trim_left a ++ u.
Proof.
  induction a as [|c a IH]; simpl; [congruence|].
  destruct (is_space c); [exact IH | reflexivity].
Qed.

Lemma take_sign_app (x u : string) (neg : bool) (d : ascii) (rest : string) :
  take_sign x = (neg, String d rest) ->
  take_sign (x ++ u) = (neg, String d (rest ++ u)).
Proof.
  destruct x as [|c x]; [discriminate|].
  destruct c as [[] [] [] [] [] [] [] []]; simpl; intros H;
    inversion H; subst; reflexivity.
Qed.

(** After the optional sign, one digit is enough for [parseFloat] to return
    a number. *)
Lemma parseFloat_digit_start (s : string) (neg : bool) (d : ascii) (rest : string) :
  take_sign (trim_left s) = (neg, String d rest) -> is_digit d = true ->
  isNaN (parseFloat s) = false.
Proof.
  intros Hs Hd. unfold parseFloat. rewrite Hs.
  destruct (mantissa_start_scan d rest (or_introl Hd)) as (_ & _ & ->).
  unfold scan_mantissa. simpl span_digits. rewrite Hd.
  destruct (span_digits rest) as [ds s3].
  destruct s3 as [|c r]; [apply to_number_not_nan|].
  destruct (Ascii.eqb c ".").
  - destruct (span_digits r) as [fp s4]. apply to_number_not_nan.
  - apply to_number_not_nan.
Qed.

Lemma parseInt10_not_nan_inv (s : string) :
  isNaN (parseInt10 s) = false ->
  exists neg d rest,
    take_sign (trim_left s) = (neg, String d rest) /\ is_digit d = true.
Proof.
  unfold parseInt10.
  destruct (take_sign (trim_left s)) as [neg s2].
  destruct s2 as [|d rest]; [simpl; discriminate|].
  cbn [span_digits].
  destruct (is_digit d) eqn:Hd; [|simpl; discriminate].
  intros _. exists neg, d, rest. split; [reflexivity | exact Hd].
Qed.

(** Whatever [parseInt] accepts, [parseFloat] accepts with any
    continuation. *)
Lemma parseInt10_prefix (a u : string) :
  isNaN (parseInt10 a) = false -> isNaN (parseFloat (a ++ u)) = false.
Proof.
  intros H. destruct (parseInt10_not_nan_inv a H) as (neg & d & rest & Hs & Hd).
  apply (parseFloat_digit_start (a ++ u) neg d (rest ++ u)); [|exact Hd].
  rewrite trim_left_app.
  - apply take_sign_app, Hs.
  - intros E. rewrite E in Hs. discriminate Hs.
Qed.

(** The HH:MM:SS branch never returns: every value returned by
    [parseTimeString] is the [parseFloat] of the trimmed text. *)
Lemma parseTimeString_returns_parseFloat (s : string) (x : number) :
  parseTimeString s = Return x -> x = parseFloat (trim s) /\ isNaN x = false.
Proof.
  unfold parseTimeString.
  destruct (isNaN (parseFloat (trim s))) eqn:E; simpl.
  - destruct (split_head ":" (trim s)) as (p0 & rest & u & Hs & Hu).
    rewrite Hs. destruct rest as [|p1 [|p2 [|p3 rest]]]; try discriminate.
    destruct (isNaN (parseInt10 p0)) eqn:E0; simpl; [discriminate|].
    pose proof (parseInt10_prefix p0 u E0) as Hc.
    rewrite <- Hu, E in Hc. discriminate Hc.
  - intros H. injection H as <-. split; [reflexivity | exact E].
Qed.

End ColonBranch.

(** ** TimeParser: what [parseTimeString] returns *)

Module TimeParser.

Import StringFacts ParseFloatFacts TrimFacts ColonBranch.

(** The decimal path comes first: when the trimmed text parses to a number,
    that number is returned, whatever its colon-separated parts are. *)
Lemma parseTimeString_float_first (t : string) :
  isNaN (parseFloat (trim t)) = false ->
  parseTimeString t = Return (parseFloat (trim t)).
Proof. intros H. unfold parseTimeString. now rewrite H. Qed.

(** C1: on the two HH:MM:SS examples [parseTimeString] returns the value of
    the leading digits, 1 and 0, and not hours*3600 + minutes*60 + seconds
    (3723.5 and 10): [parseFloat] accepts the digits before the first colon,
    so the HH:MM:SS branch is not reached. *)
Theorem parseTimeString_hms_examples :
  parseTimeString "01:02:03.5" = Return (of_Z 1) /\
  parseTimeString "01:02:03.5" <>
    Return (add (add (mul (of_Z 1) (of_Z 3600)) (mul (of_Z 2) (of_Z 60)))
                (parseFloat "03.5")) /\
  parseTimeString "00:00:10" = Return (of_Z 0) /\
  parseTimeString "00:00:10" <> Return (of_Z 10).
Proof.
  repeat split; try (vm_compute; reflexivity); vm_compute; discriminate.
Qed.

(** C2: on the two-part text 1:2 [parseTimeString] does not fail with
    InvalidTimeFormat: it returns 1, the value of the digits before the
    colon. *)
Theorem parseTimeString_two_parts :
  parseTimeString "1:2" = Return (of_Z 1) /\
  List.length (split ":" "1:2") = 2%nat /\
  parseTimeString "1:2" <> Throw (InvalidTimeFormat "1:2").
Proof.
  repeat split; try (vm_compute; reflexivity); vm_compute; discriminate.
Qed.

(** C3: for every valid decimal-number string [s], [parseTimeString s]
    returns the value of [parseFloat s], which is a number; and the decimal
    path has priority: whenever the trimmed text of any [t] parses to a
    number, that number is returned without regard to the colon form. *)
Theorem parseTimeString_decimal (s : string) :
  DecimalString s ->
  parseTimeString s = Return (parseFloat s) /\
  isNaN (parseFloat s) = false /\
  (forall t, isNaN (parseFloat (trim t)) = false ->
             parseTimeString t = Return (parseFloat (trim t))).
Proof.
  intros Hs. pose proof (parseFloat_decimal_not_nan s Hs) as Hn.
  repeat split; [| exact Hn | exact parseTimeString_float_first].
  rewrite <- (trim_decimal s Hs) at 2.
  apply parseTimeString_float_first. now rewrite (trim_decimal s Hs).
Qed.

Lemma decimal_3_5 : DecimalString "3.5".
Proof.
  exact (Decimal "" "3.5" "" Sign_none
           (Mant_frac "3" "5" eq_refl eq_refl ltac:(discriminate)) Exp_none).
Defined.

Lemma parseTimeString_decimal_witness :
  DecimalString "3.5" /\
  parseTimeString "3.5" = Return (parseFloat "3.5") /\
  isNaN (parseFloat "3.5") = false /\
  (forall t, isNaN (parseFloat (trim t)) = false ->
             parseTimeString t = Return (parseFloat (trim t))).
Proof.
  split; [exact decimal_3_5 | exact (parseTimeString_decimal "3.5" decimal_3_5)].
Defined.

(** C10: for every text made of a valid decimal-number string [p] followed
    by characters [r] that start with a non-numeric character,
    [parseTimeString] returns the value of [p]: it does not fail, and the
    colon-separated parts of the text play no role. *)
Theorem parseTimeString_numeric_prefix (p r : string) :
  DecimalString p -> non_numeric_start r = true ->
  parseTimeString (p ++ r) = Return (parseFloat p) /\
  isNaN (parseFloat p) = false.
Proof.
  intros Hp Hr. pose proof (parseFloat_decimal_not_nan p Hp) as Hn.
  split; [|exact Hn].
  assert (E : parseFloat (trim (p ++ r)) = parseFloat p).
  { rewrite (trim_decimal_app p r Hp).
    apply parseFloat_decimal_app; [exact Hp|].
    apply non_numeric_start_trim_right, Hr. }
  rewrite <- E. apply parseTimeString_float_first. now rewrite E.
Qed.

Lemma decimal_1 : DecimalString "1".
Proof.
  exact (Decimal "" "1" "" Sign_none
           (Mant_int "1" ltac:(discriminate) eq_refl) Exp_none).
Defined.

Lemma parseTimeString_numeric_prefix_witness :
  DecimalString "1" /\ non_numeric_start ":30" = true /\
  parseTimeString "1:30" = Return (parseFloat "1") /\
  isNaN (parseFloat "1") = false.
Proof.
  split; [exact decimal_1|]. split; [reflexivity|].
  exact (parseTimeString_numeric_prefix "1" ":30" decimal_1 eq_refl).
Defined.

Example parseTimeString_10abc : parseTimeString "10abc" = Return (of_Z 10).
Proof. vm_compute. reflexivity. Qed.

Example parseTimeString_abc : parseTimeString "abc" = Throw (InvalidTimeFormat "abc").
Proof. vm_compute. reflexivity. Qed.

End TimeParser.

(** ** ImportPipeline: the insertion loop *)

Local Open Scope list_scope.

Section InsertionLoop.

Variable Seq : Type.
Variable placeMarker : Seq -> number -> string -> Seq * bool.

Local Abbreviation step := (insertMarker Seq placeMarker).
Local Abbreviation loop := (insertMarkers_loop Seq placeMarker).

(** A record whose timestamp does not parse: the [catch] clause logs and
    the sink is not touched. *)
Lemma insertMarker_unparseable (marker : Marker) (i : Z) (w : World Seq) (e : JSError) :
  parseTimeString (timestamp marker) = Throw e ->
  step marker i w =
    (Return false,
     mkWorld (console w ++ [(warning, MsgInsertFailed (i + 2) e)])
             (activeSequence w) (calls w)).
Proof.
  intros H. unfold insertMarker, try_catch, bind, lift. rewrite H. reflexivity.
Qed.

(** A record whose timestamp parses: the sink is invoked once, and its
    answer decides between the two branches. *)
Lemma insertMarker_parseable (marker : Marker) (i : Z) (w : World Seq)
      (t : number) (st : Seq) :
  parseTimeString (timestamp marker) = Return t ->
  activeSequence w = Some st ->
  step marker i w =
    (Return (snd (placeMarker st t (comment marker))),
     mkWorld (console w ++
                (if snd (placeMarker st t (comment marker)) then []
                 else [(warning, MsgInsertFailed (i + 2) HostError)]))
             (Some (fst (placeMarker st t (comment marker))))
             (calls w ++ [mkCall t (comment marker)
                                 (snd (placeMarker st t (comment marker)))])).
Proof.
  intros H Hw.
  unfold insertMarker, try_catch, bind, lift, createNamedMarker.
  rewrite H, Hw.
  destruct (placeMarker st t (comment marker)) as [st' ok]. simpl.
  destruct ok; simpl; [rewrite app_nil_r|]; reflexivity.
Qed.

(** The loop always runs to its end, invokes the sink exactly for the
    records whose timestamp parses, in order, and counts every record
    once. *)
Lemma insertMarkers_loop_spec (markers : list Marker) :
  forall (i ins skp : Z) (w : World Seq) (st : Seq),
    activeSequence w = Some st ->
    exists r w' new,
      loop markers i ins skp w = (Return r, w') /\
      isSome (activeSequence w') = true /\
      calls w' = calls w ++ new /\
      map call_args new = parsed_args markers /\
      inserted r = ins + Z.of_nat (count_ok new) /\
      skipped r = skp + Z.of_nat (unparseable markers) + Z.of_nat (count_failed new) /\
      Forall (fun c => exists seq,
                call_ok c = snd (placeMarker seq (call_time c) (call_label c))) new.
Proof.
  induction markers as [|m rest IH]; intros i ins skp w st Hw.
  - exists (mkResult ins skp).
    destruct (0 <? skp) eqn:E.
    + exists (mkWorld (console w ++ [(warning, MsgSkipped skp)])
                      (activeSequence w) (calls w)), [].
      simpl. unfold bind, log, ret. rewrite E. simpl. rewrite Hw, app_nil_r.
      repeat split; try lia. constructor.
    + exists w, []. simpl. unfold bind, ret. rewrite E. simpl.
      rewrite Hw, app_nil_r. repeat split; try lia. constructor.
  - cbn [insertMarkers_loop]. unfold bind at 1.
    destruct (parseTimeString (timestamp m)) as [t|e] eqn:Hp.
    + rewrite (insertMarker_parseable m i w t st Hp Hw).
      destruct (placeMarker st t (comment m)) as [st' ok] eqn:Hpm. cbn [fst snd].
      assert (Hthis : exists seq, ok = snd (placeMarker seq t (comment m)))
        by (exists st; now rewrite Hpm).
      destruct ok.
      * edestruct (IH (i + 1) (ins + 1) skp) as (r & w' & new & Hrun & Hact & Hcalls & Hargs & Hins & Hskp & Hsink);
          [| rewrite Hrun].
        { reflexivity. }
        exists r, w', (mkCall t (comment m) true :: new).
        cbn [calls] in Hcalls. rewrite Hcalls, <- app_assoc.
        cbn [parsed_args unparseable map call_args call_time call_label].
        rewrite Hp, Hargs.
        unfold count_ok, count_failed in *. cbn [filter call_ok negb List.length].
        repeat split; auto; lia.
      * edestruct (IH (i + 1) ins (skp + 1)) as (r & w' & new & Hrun & Hact & Hcalls & Hargs & Hins & Hskp & Hsink);
          [| rewrite Hrun].
        { reflexivity. }
        exists r, w', (mkCall t (comment m) false :: new).
        cbn [calls] in Hcalls. rewrite Hcalls, <- app_assoc.
        cbn [parsed_args unparseable map call_args call_time call_label].
        rewrite Hp, Hargs.
        unfold count_ok, count_failed in *. cbn [filter call_ok negb List.length].
        repeat split; auto; lia.
    + rewrite (insertMarker_unparseable m i w e Hp).
      edestruct (IH (i + 1) ins (skp + 1)) as (r & w' & new & Hrun & Hact & Hcalls & Hargs & Hins & Hskp & Hsink);
        [| rewrite Hrun].
      { cbn [activeSequence]. exact Hw. }
      exists r, w', new.
      cbn [calls] in Hcalls.
      cbn [parsed_args unparseable]. rewrite Hp.
      repeat split; auto; lia.
Qed.

Lemma parsed_unparseable_length (markers : list Marker) :
  (List.length (parsed_args markers) + unparseable markers)%nat = List.length markers.
Proof.
  induction markers as [|m rest IH]; simpl; [reflexivity|].
  destruct (parseTimeString (timestamp m)); simpl; lia.
Qed.

Lemma count_ok_failed (cs : list Call) :
  (count_ok cs + count_failed cs)%nat = List.length cs.
Proof.
  unfold count_ok, count_failed.
  induction cs as [|c cs IH]; simpl; [reflexivity|].
  destruct (call_ok c); simpl; lia.
Qed.

End InsertionLoop.

(** C6: with an active sequence, [insertMarkers] returns a result whose
    counts are non-negative and add up to the number of records it was
    given: every record is counted once, as inserted or as skipped. *)
Theorem insertMarkers_counts (Seq : Type)
        (placeMarker : Seq -> number -> string -> Seq * bool)
        (markers : list Marker) (w : World Seq) (st : Seq) :
  activeSequence w = Some st ->
  exists r w',
    insertMarkers Seq placeMarker markers w = (Return r, w') /\
    0 <= inserted r /\ 0 <= skipped r /\
    inserted r + skipped r = Z.of_nat (List.length markers).
Proof.
  intros Hw. unfold insertMarkers. rewrite Hw.
  destruct (insertMarkers_loop_spec Seq placeMarker markers 0 0 0 w st Hw)
    as (r & w' & new & Hrun & _ & _ & Hargs & Hins & Hskp & _).
  exists r, w'. split; [exact Hrun|].
  pose proof (parsed_unparseable_length markers) as Hlen.
  pose proof (count_ok_failed new) as Hcnt.
  rewrite <- Hargs, length_map in Hlen. lia.
Qed.

Lemma insertMarkers_counts_witness :
  exists r w',
    insertMarkers _ recordingSink
      [mkMarker "10" "Goal"; mkMarker "abc" "Comment"; mkMarker "20" "Save"]
      (mkWorld [] (Some []) []) = (Return r, w') /\
    0 <= inserted r /\ 0 <= skipped r /\
    inserted r + skipped r = 3.
Proof.
  exact (insertMarkers_counts _ recordingSink
           [mkMarker "10" "Goal"; mkMarker "abc" "Comment"; mkMarker "20" "Save"]
           (mkWorld [] (Some []) []) [] eq_refl).
Defined.

(** C7, as the code has it: with an active sequence the loop never aborts;
    a record whose timestamp fails to parse is counted as skipped and causes
    no sink invocation; a record for which the sink reports failure is
    counted as skipped too, after the one invocation that failed; and every
    record whose timestamp parses is offered to the sink, in order, whatever
    happened to the records before it. *)
Theorem insertMarkers_skips (Seq : Type)
        (placeMarker : Seq -> number -> string -> Seq * bool)
        (markers : list Marker) (w : World Seq) (st : Seq) :
  activeSequence w = Some st ->
  exists r w' new,
    insertMarkers Seq placeMarker markers w = (Return r, w') /\
    calls w' = calls w ++ new /\
    map call_args new = parsed_args markers /\
    skipped r = Z.of_nat (unparseable markers) + Z.of_nat (count_failed new) /\
    inserted r = Z.of_nat (count_ok new).
Proof.
  intros Hw. unfold insertMarkers. rewrite Hw.
  destruct (insertMarkers_loop_spec Seq placeMarker markers 0 0 0 w st Hw)
    as (r & w' & new & Hrun & _ & Hcalls & Hargs & Hins & Hskp & _).
  exists r, w', new. repeat split; auto.
Qed.

Lemma insertMarkers_skips_witness :
  exists r w' new,
    insertMarkers _ rejectingSink
      [mkMarker "abc" "Comment"; mkMarker "20" "Save"]
      (mkWorld [] (Some tt) []) = (Return r, w') /\
    calls w' = [] ++ new /\
    map call_args new = parsed_args [mkMarker "abc" "Comment"; mkMarker "20" "Save"] /\
    skipped r =
      Z.of_nat (unparseable [mkMarker "abc" "Comment"; mkMarker "20" "Save"]) +
      Z.of_nat (count_failed new) /\
    inserted r = Z.of_nat (count_ok new).
Proof.
  exact (insertMarkers_skips _ rejectingSink
           [mkMarker "abc" "Comment"; mkMarker "20" "Save"]
           (mkWorld [] (Some tt) []) tt eq_refl).
Defined.

(** The row abc,Comment is skipped and the rows after it are still
    processed. *)
Example insertMarkers_abc_row :
  insertMarkers _ recordingSink
    [mkMarker "abc" "Comment"; mkMarker "20" "Save"] (mkWorld [] (Some []) [])
  = (Return (mkResult 1 1),
     mkWorld [(warning, MsgInsertFailed 2 (InvalidTimeFormat "abc"));
              (warning, MsgSkipped 1)]
             (Some [(of_Z 20, "Save"%string)])
             [mkCall (of_Z 20) "Save" true]).
Proof. vm_compute. reflexivity. Qed.

(** C7 as stated fails: a record skipped because the sink reported failure
    did cause a sink invocation. *)
Lemma skipped_record_had_sink_invocation :
  ~ (forall (Seq : Type) (placeMarker : Seq -> number -> string -> Seq * bool)
            (marker : Marker) (w w' : World Seq) (r : ImportResult),
        insertMarkers Seq placeMarker [marker] w = (Return r, w') ->
        skipped r = 1 -> calls w' = calls w).
Proof.
  intros H.
  pose proof (H unit rejectingSink (mkMarker "10" "Goal")
                (mkWorld [] (Some tt) [])
                (mkWorld [(warning, MsgInsertFailed 2 HostError);
                          (warning, MsgSkipped 1)]
                         (Some tt) [mkCall (of_Z 10) "Goal" false])
                (mkResult 0 1)
                ltac:(vm_compute; reflexivity) eq_refl) as E.
  discriminate E.
Qed.

(** ** Independence of a run from the world it starts in *)

Section Oblivious.

Variable Seq : Type.
Variable placeMarker : Seq -> number -> string -> Seq * bool.
Variable active : bool.

Local Abbreviation obl := (oblivious Seq active).

Lemma oblivious_ret {A} (a : A) : obl (ret a).
Proof.
  exists (Return a), []. intros w Hw. simpl. rewrite app_nil_r. auto.
Qed.

Lemma oblivious_throw {A} (e : JSError) : obl (@throw Seq A e).
Proof.
  exists (Throw e), []. intros w Hw. simpl. rewrite app_nil_r. auto.
Qed.

Lemma oblivious_lift {A} (c : completion A) : obl (lift c).
Proof.
  exists c, []. intros w Hw. simpl. rewrite app_nil_r. auto.
Qed.

Lemma oblivious_log (message : Message) (type : LogType) : obl (log message type).
Proof.
  exists (Return tt), []. intros w Hw.
  destruct type; simpl; rewrite app_nil_r; auto.
Qed.

Lemma oblivious_bind {A B} (m : M Seq A) (k : A -> M Seq B) :
  obl m -> (forall a, obl (k a)) -> obl (bind m k).
Proof.
  intros (c & new & Hm) Hk. destruct c as [a|e].
  - destruct (Hk a) as (c2 & new2 & Hka).
    exists c2, (new ++ new2). intros w Hw.
    destruct (Hm w Hw) as (Hc & Hcalls & Hact).
    unfold bind. destruct (m w) as [c' w']. simpl in Hc, Hcalls, Hact. subst c'.
    destruct (Hka w' Hact) as (Hc2 & Hcalls2 & Hact2).
    rewrite Hcalls2, Hcalls, app_assoc. auto.
  - exists (Throw e), new. intros w Hw.
    destruct (Hm w Hw) as (Hc & Hcalls & Hact).
    unfold bind. destruct (m w) as [c' w']. simpl in Hc, Hcalls, Hact. subst c'.
    simpl. auto.
Qed.

Lemma oblivious_try_catch {A} (m : M Seq A) (h : JSError -> M Seq A) :
  obl m -> (forall e, obl (h e)) -> obl (try_catch m h).
Proof.
  intros (c & new & Hm) Hh. destruct c as [a|e].
  - exists (Return a), new. intros w Hw.
    destruct (Hm w Hw) as (Hc & Hcalls & Hact).
    unfold try_catch. destruct (m w) as [c' w']. simpl in Hc, Hcalls, Hact. subst c'.
    simpl. auto.
  - destruct (Hh e) as (c2 & new2 & Hhe).
    exists c2, (new ++ new2). intros w Hw.
    destruct (Hm w Hw) as (Hc & Hcalls & Hact).
    unfold try_catch. destruct (m w) as [c' w']. simpl in Hc, Hcalls, Hact. subst c'.
    destruct (Hhe w' Hact) as (Hc2 & Hcalls2 & Hact2).
    rewrite Hcalls2, Hcalls, app_assoc. auto.
Qed.

Lemma oblivious_readCSV_loop (lines : list string) :
  forall isFirstLine lineNumber data,
    obl (readCSV_loop lines isFirstLine lineNumber data).
Proof.
  induction lines as [|line rest IH]; intros isFirstLine lineNumber data; simpl.
  - apply oblivious_ret.
  - destruct (_ || _)%bool; [apply IH|].
    destruct isFirstLine; destruct (_ <? 2).
    + apply oblivious_throw.
    + apply IH.
    + apply oblivious_bind; [apply oblivious_log | intros _; apply IH].
    + apply IH.
Qed.

Lemma oblivious_readCSV (env : Env) (filePath : string) :
  obl (readCSV env filePath).
Proof.
  unfold readCSV. destruct (negb _).
  - apply oblivious_throw.
  - apply oblivious_readCSV_loop.
Qed.

Lemma oblivious_parseCSVData_loop (data : list (list string)) :
  forall i markers, obl (parseCSVData_loop data i markers).
Proof.
  induction data as [|row rest IH]; intros i markers; cbn [parseCSVData_loop].
  - apply oblivious_ret.
  - destruct (falsy (nth_error row 0)).
    + apply oblivious_bind; [apply oblivious_log | intros _; apply IH].
    + destruct (falsy (nth_error row 1)).
      * apply oblivious_bind; [apply oblivious_log | intros _; apply IH].
      * apply IH.
Qed.

Lemma oblivious_parseCSVData (data : list (list string)) : obl (parseCSVData data).
Proof.
  unfold parseCSVData. apply oblivious_bind.
  - apply oblivious_parseCSVData_loop.
  - intros markers. destruct (_ =? 0); [apply oblivious_throw | apply oblivious_ret].
Qed.

Lemma oblivious_selectCSVFile (env : Env) : obl (selectCSVFile env).
Proof.
  unfold selectCSVFile. destruct (openDialog env).
  - apply oblivious_bind; [apply oblivious_log | intros _; apply oblivious_ret].
  - apply oblivious_ret.
Qed.

(** From here on the sink always succeeds. *)
Hypothesis always_succeeds :
  forall seq time name, snd (placeMarker seq time name) = true.

Lemma oblivious_createNamedMarker (time : number) (name : string) :
  obl (createNamedMarker Seq placeMarker time name).
Proof.
  unfold oblivious, createNamedMarker. destruct active.
  - exists (Return tt), [mkCall time name true]. intros w Hw.
    destruct (activeSequence w) as [seq|]; [|discriminate Hw].
    pose proof (always_succeeds seq time name) as Hok.
    destruct (placeMarker seq time name) as [seq' ok]. simpl in Hok. subst ok.
    simpl. auto.
  - exists (Throw HostError), []. intros w Hw.
    destruct (activeSequence w) as [seq|] eqn:E; [discriminate Hw|].
    simpl. rewrite app_nil_r, E. auto.
Qed.

Lemma oblivious_insertMarker (marker : Marker) (i : Z) :
  obl (insertMarker Seq placeMarker marker i).
Proof.
  unfold insertMarker. apply oblivious_try_catch.
  - apply oblivious_bind; [apply oblivious_lift|]. intros time.
    apply oblivious_bind; [apply oblivious_createNamedMarker|]. intros _.
    apply oblivious_ret.
  - intros e. apply oblivious_bind; [apply oblivious_log | intros _; apply oblivious_ret].
Qed.

Lemma oblivious_insertMarkers_loop (markers : list Marker) :
  forall i ins skp, obl (insertMarkers_loop Seq placeMarker markers i ins skp).
Proof.
  induction markers as [|m rest IH]; intros i ins skp; simpl.
  - apply oblivious_bind; [| intros _; apply oblivious_ret].
    destruct (0 <? skp); [apply oblivious_log | apply oblivious_ret].
  - apply oblivious_bind; [apply oblivious_insertMarker|].
    intros [|]; apply IH.
Qed.

Lemma oblivious_insertMarkers (markers : list Marker) :
  obl (insertMarkers Seq placeMarker markers).
Proof.
  destruct (oblivious_insertMarkers_loop markers 0 0 0) as (c & new & H).
  unfold oblivious, insertMarkers. destruct active.
  - exists c, new. intros w Hw.
    destruct (activeSequence w) eqn:E; [|discriminate Hw].
    apply H. now rewrite E.
  - exists (Throw NoActiveSequence), []. intros w Hw.
    destruct (activeSequence w) eqn:E; [discriminate Hw|].
    simpl. rewrite app_nil_r, E. auto.
Qed.

Lemma oblivious_run (env : Env) : obl (run Seq placeMarker env).
Proof.
  unfold run.
  apply oblivious_bind; [apply oblivious_selectCSVFile|]. intros filePath.
  destruct (falsy filePath); [apply oblivious_throw|].
  apply oblivious_bind; [apply oblivious_log|]. intros _.
  apply oblivious_bind; [apply oblivious_readCSV|]. intros data.
  destruct (_ =? 0); [apply oblivious_throw|].
  apply oblivious_bind; [apply oblivious_parseCSVData|]. intros markers.
  apply oblivious_bind; [apply oblivious_insertMarkers|]. intros result.
  apply oblivious_bind; [apply oblivious_log | intros _; apply oblivious_ret].
Qed.

End Oblivious.

(** ** ImportPipeline: whole runs *)

Section WholeRuns.

Variable Seq : Type.
Variable placeMarker : Seq -> number -> string -> Seq * bool.

Lemma all_ok_calls (new : list Call) :
  Forall (fun c => call_ok c = true) new ->
  new = map successful_call (map call_args new) /\
  count_ok new = List.length new /\ count_failed new = 0%nat.
Proof.
  unfold count_ok, count_failed.
  induction 1 as [|c new Hc _ (IH1 & IH2 & IH3)]; simpl; [auto|].
  rewrite Hc. simpl. rewrite <- IH1, IH2, IH3.
  destruct c as [t l ok]. simpl in Hc. subst ok. auto.
Qed.

(** With a sink that always succeeds, the result and the invocations of
    [insertMarkers] are a function of the records alone. *)
Lemma insertMarkers_all_succeed (markers : list Marker) (w : World Seq) (st : Seq) :
  (forall seq time name, snd (placeMarker seq time name) = true) ->
  activeSequence w = Some st ->
  exists w',
    insertMarkers Seq placeMarker markers w =
      (Return (mkResult (Z.of_nat (List.length (parsed_args markers)))
                        (Z.of_nat (unparseable markers))), w') /\
    calls w' = calls w ++ map successful_call (parsed_args markers).
Proof.
  intros Hok Hw. unfold insertMarkers. rewrite Hw.
  destruct (insertMarkers_loop_spec Seq placeMarker markers 0 0 0 w st Hw)
    as (r & w' & new & Hrun & _ & Hcalls & Hargs & Hins & Hskp & Hsink).
  assert (Hall : Forall (fun c => call_ok c = true) new).
  { apply (Forall_impl _ (P := fun c => exists seq,
             call_ok c = snd (placeMarker seq (call_time c) (call_label c))));
      [|exact Hsink].
    intros c (seq & ->). apply Hok. }
  destruct (all_ok_calls new Hall) as (Hnew & Hcok & Hcfail).
  exists w'. rewrite Hrun. split.
  - f_equal. destruct r as [ins skp]. simpl in Hins, Hskp.
    rewrite Hcok in Hins. rewrite Hcfail in Hskp.
    rewrite <- Hargs, length_map, Hins, Hskp. simpl. now rewrite Z.add_0_r.
  - rewrite Hcalls, <- Hargs, <- Hnew. reflexivity.
Qed.

Lemma readCSV_example (env : Env) (filePath : string) (w : World Seq) :
  files env filePath = mkFile true example_text ->
  readCSV env filePath w =
    (Return [["10"; "Goal"]; [""; "Empty"]; ["20"; "Save"]]%string, w).
Proof. intros H. unfold readCSV. rewrite H. reflexivity. Qed.

Lemma parseCSVData_example (w : World Seq) :
  parseCSVData [["10"; "Goal"]; [""; "Empty"]; ["20"; "Save"]]%string w =
    (Return [mkMarker "10" "Goal"; mkMarker "20" "Save"],
     mkWorld (console w ++ [(warning, MsgEmptyTimestamp 3)])
             (activeSequence w) (calls w)).
Proof. reflexivity. Qed.

End WholeRuns.

(** C5: on the example file, with a sink that always succeeds, the run
    returns insertedCount 2 and skippedCount 0, and the sink is invoked
    exactly twice, with (10, Goal) and then (20, Save); the row with the
    empty timestamp is dropped with a warning. *)
Theorem run_example (Seq : Type)
        (placeMarker : Seq -> number -> string -> Seq * bool)
        (env : Env) (filePath : string) (w : World Seq) (st : Seq) :
  (forall seq time name, snd (placeMarker seq time name) = true) ->
  openDialog env = Some filePath -> filePath <> ""%string ->
  files env filePath = mkFile true example_text ->
  activeSequence w = Some st ->
  exists w',
    run Seq placeMarker env w = (Return (mkResult 2 0), w') /\
    calls w' = calls w ++ [mkCall (of_Z 10) "Goal" true; mkCall (of_Z 20) "Save" true].
Proof.
  intros Hok Hd Hne Hf Hw.
  unfold run, selectCSVFile. rewrite Hd.
  cbv [bind log ret CONFIG_showDebugInfo negb falsy].
  rewrite (proj2 (String.eqb_neq filePath "") Hne).
  rewrite (readCSV_example Seq env filePath _ Hf).
  cbn [List.length Z.of_nat Z.eqb Pos.of_succ_nat Pos.succ].
  rewrite parseCSVData_example.
  pose (ms := [mkMarker "10" "Goal"; mkMarker "20" "Save"]).
  assert (Hpa : parsed_args ms = [(of_Z 10, "Goal"%string); (of_Z 20, "Save"%string)])
    by (vm_compute; reflexivity).
  assert (Hun : unparseable ms = 0%nat) by (vm_compute; reflexivity).
  match goal with
  | |- context [insertMarkers Seq placeMarker _ ?w1] =>
      destruct (insertMarkers_all_succeed Seq placeMarker ms w1 st Hok Hw)
        as (w' & Hrun & Hcalls)
  end.
  rewrite Hpa, Hun in Hrun. rewrite Hpa in Hcalls.
  fold ms. rewrite Hrun.
  eexists. split; [reflexivity|].
  cbn [calls]. rewrite Hcalls. reflexivity.
Qed.

Lemma run_example_witness :
  exists w',
    run _ recordingSink example_env (mkWorld [] (Some []) []) =
      (Return (mkResult 2 0), w') /\
    calls w' = [] ++ [mkCall (of_Z 10) "Goal" true; mkCall (of_Z 20) "Save" true].
Proof.
  apply (run_example _ recordingSink example_env "markers.csv"
           (mkWorld [] (Some []) []) []).
  - intros seq time name. reflexivity.
  - reflexivity.
  - discriminate.
  - reflexivity.
  - reflexivity.
Defined.

(** C9: with a sink that always succeeds, running the pipeline twice on the
    same file, the second run starting in the world that the first one
    left, gives the same completion (the same counts, or the same fatal
    error) and the same ordered sequence of sink invocations. *)
Theorem run_twice (Seq : Type)
        (placeMarker : Seq -> number -> string -> Seq * bool)
        (env : Env) (w : World Seq) :
  (forall seq time name, snd (placeMarker seq time name) = true) ->
  let w1 := snd (run Seq placeMarker env w) in
  let w2 := snd (run Seq placeMarker env w1) in
  fst (run Seq placeMarker env w) = fst (run Seq placeMarker env w1) /\
  exists new, calls w1 = calls w ++ new /\ calls w2 = calls w1 ++ new.
Proof.
  intros Hok w1 w2.
  destruct (oblivious_run Seq placeMarker (isSome (activeSequence w)) Hok env)
    as (c & new & Hob).
  destruct (Hob w eq_refl) as (Hc & Hcalls & Hact).
  destruct (Hob w1 Hact) as (Hc1 & Hcalls1 & _).
  split; [congruence|]. exists new. auto.
Qed.

Lemma run_twice_witness :
  fst (run _ recordingSink example_env empty_world) =
    fst (run _ recordingSink example_env
           (snd (run _ recordingSink example_env empty_world))) /\
  exists new,
    calls (snd (run _ recordingSink example_env empty_world)) =
      calls empty_world ++ new /\
    calls (snd (run _ recordingSink example_env
                  (snd (run _ recordingSink example_env empty_world)))) =
      calls (snd (run _ recordingSink example_env empty_world)) ++ new.
Proof.
  exact (run_twice _ recordingSink example_env empty_world
           (fun _ _ _ => eq_refl)).
Defined.

(** *** A file with nothing but a header *)

Section HeaderOnly.

Variable Seq : Type.
Variable placeMarker : Seq -> number -> string -> Seq * bool.

Lemma readCSV_loop_blank (rest : list string) :
  Forall (fun line => trim line = ""%string) rest ->
  forall isFirstLine lineNumber data (w : World Seq),
    readCSV_loop rest isFirstLine lineNumber data w = (Return data, w).
Proof.
  induction 1 as [|line rest Hline _ IH]; intros isFirstLine lineNumber data w.
  - reflexivity.
  - cbn [readCSV_loop]. rewrite Hline. cbn [String.eqb]. rewrite orb_true_r.
    apply IH.
Qed.

Lemma trim_nonempty (s : string) : trim s <> ""%string -> s <> ""%string.
Proof. intros H E. subst s. apply H. reflexivity. Qed.

End HeaderOnly.

(** C8, as the code has it: for a file with a valid header row and no data
    rows, [readCSV] returns no row and the run fails with the error of
    [main] for empty data, before [parseCSVData] and before any sink
    invocation. *)
Theorem run_header_only (Seq : Type)
        (placeMarker : Seq -> number -> string -> Seq * bool)
        (env : Env) (filePath header : string) (rest : list string)
        (w : World Seq) :
  openDialog env = Some filePath -> filePath <> ""%string ->
  file_exists (files env filePath) = true ->
  file_lines (file_text (files env filePath)) = header :: rest ->
  trim header <> ""%string ->
  (2 <= List.length (split "," header))%nat ->
  Forall (fun line => trim line = ""%string) rest ->
  exists w',
    run Seq placeMarker env w = (Throw EmptyData, w') /\
    calls w' = calls w /\ activeSequence w' = activeSequence w.
Proof.
  intros Hd Hne Hex Hlines Hhead Hcols Hrest.
  unfold run, selectCSVFile. rewrite Hd.
  cbv [bind log ret CONFIG_showDebugInfo negb falsy].
  rewrite (proj2 (String.eqb_neq filePath "") Hne).
  unfold readCSV. rewrite Hex, Hlines. cbn [negb readCSV_loop].
  rewrite (proj2 (String.eqb_neq header "") (trim_nonempty header Hhead)).
  rewrite (proj2 (String.eqb_neq (trim header) "") Hhead).
  cbn [orb]. rewrite length_map.
  replace (Z.of_nat (List.length (split "," header)) <? 2) with false
    by (symmetry; apply Z.ltb_ge; lia).
  rewrite (readCSV_loop_blank Seq rest Hrest).
  cbn. eexists. split; [reflexivity|]. split; reflexivity.
Qed.

Lemma run_header_only_witness :
  exists w',
    run _ recordingSink header_only_env (mkWorld [] (Some []) []) =
      (Throw EmptyData, w') /\
    calls w' = [] /\ activeSequence w' = Some [].
Proof.
  apply (run_header_only _ recordingSink header_only_env "markers.csv" "t,c" []
           (mkWorld [] (Some []) [])).
  - reflexivity.
  - discriminate.
  - reflexivity.
  - reflexivity.
  - discriminate.
  - simpl. lia.
  - constructor.
Defined.

(** C8 as stated fails: on the header-only file the error is not
    NoValidMarkers. *)
Lemma header_only_is_not_NoValidMarkers :
  fst (run _ recordingSink header_only_env (mkWorld [] (Some []) []))
    = Throw EmptyData /\
  fst (run _ recordingSink header_only_env (mkWorld [] (Some []) []))
    <> Throw NoValidMarkers.
Proof. split; [vm_compute; reflexivity | vm_compute; discriminate]. Qed.

(** NoValidMarkers is the error of a file whose data rows all have an empty
    timestamp or comment. *)
Example run_no_valid_markers :
  fst (run _ recordingSink
         (mkEnv (Some "markers.csv"%string)
                (fun _ => mkFile true ("t,c" ++ LF ++ ",Empty" ++ LF)%string))
         (mkWorld [] (Some []) []))
  = Throw NoValidMarkers.
Proof. vm_compute. reflexivity. Qed.

(** ** CsvReader: the cleaning of the fields *)

Section CsvReader.

Variable Seq : Type.


End CsvReader.



(** The quoted fields of the specification. *)
Example clean_column_quoted_5 :
  clean_column (String dquote ("5" ++ String dquote "")) = "5"%string.
Proof. reflexivity. Qed.

Example clean_column_quoted_nice_shot :
  clean_column (String dquote ("Nice shot" ++ String dquote "")) = "Nice shot"%string.
Proof. reflexivity. Qed.


Example clean_column_space_quoted_5 :
  clean_column (String " " (String dquote ("5" ++ String dquote "")))
    = String dquote "5" /\
  clean_column_trim_first (String " " (String dquote ("5" ++ String dquote "")))
    = "5"%string.
Proof. split; reflexivity. Qed.

(** * Further properties *)

(** ** [trim] *)

Module TrimLaws.

Import StringFacts.

Lemma trim_left_split (s : string) :
  exists l, s = (l ++ trim_left s)%string /\ all_space l = true.
Proof.
  induction s as [|c s (l & Hl & Hs)]; simpl.
  - exists ""%string. split; reflexivity.
  - destruct (is_space c) eqn:Hc.
    + exists (String c l). simpl. rewrite Hc, Hs, <- Hl. split; reflexivity.
    + exists ""%string. split; reflexivity.
Qed.

Lemma trim_right_split (s : string) :
  exists r, s = (trim_right s ++ r)%string /\ all_space r = true.
Proof.
  induction s as [|c s (r & Hr & Hs)]; simpl.
  - exists ""%string. split; reflexivity.
  - destruct (trim_right s) as [|a t] eqn:E.
    + simpl in Hr. subst s. destruct (is_space c) eqn:Hc.
      * exists (String c r). simpl. rewrite Hc, Hs. split; reflexivity.
      * exists r. split; [reflexivity | exact Hs].
    + exists r. split; [simpl; f_equal; exact Hr | exact Hs].
Qed.

Lemma trim_left_starts (s : string) : starts_with_space (trim_left s) = false.
Proof.
  induction s as [|c s IH]; simpl; [reflexivity|].
  destruct (is_space c) eqn:Hc; [exact IH | simpl; exact Hc].
Qed.

Lemma trim_right_ends (s : string) : ends_with_space (trim_right s) = false.
Proof.
  induction s as [|c s IH]; simpl; [reflexivity|].
  destruct (trim_right s) as [|a t] eqn:E.
  - destruct (is_space c) eqn:Hc; simpl; [reflexivity | exact Hc].
  - exact IH.
Qed.

Lemma trim_right_starts (s : string) :
  starts_with_space s = false -> starts_with_space (trim_right s) = false.
Proof.
  destruct s as [|c s]; simpl; [reflexivity|]. intros Hc.
  destruct (trim_right s); [rewrite Hc|]; simpl; exact Hc.
Qed.

Lemma trim_left_fixed (s : string) :
  starts_with_space s = false -> trim_left s = s.
Proof. destruct s as [|c s]; simpl; [reflexivity|]. now intros ->. Qed.

Lemma trim_right_cons (c : ascii) (s : string) :
  trim_right (String c s) =
    match trim_right s with
    | EmptyString => if is_space c then EmptyString else String c EmptyString
    | t => String c t
    end.
Proof. reflexivity. Qed.

Lemma trim_right_fixed (s : string) :
  ends_with_space s = false -> trim_right s = s.
Proof.
  induction s as [|c s IH]; [reflexivity|].
  destruct s as [|a s'].
  - simpl. now intros ->.
  - intros H. change (ends_with_space (String a s') = false) in H.
    now rewrite trim_right_cons, (IH H).
Qed.

Lemma trim_split (s : string) :
  exists l r,
    s = (l ++ trim s ++ r)%string /\ all_space l = true /\ all_space r = true.
Proof.
  destruct (trim_left_split s) as (l & Hl & Hls).
  destruct (trim_right_split (trim_left s)) as (r & Hr & Hrs).
  exists l, r. unfold trim. rewrite <- Hr, <- Hl. auto.
Qed.

Lemma trim_fixed (t : string) :
  starts_with_space t = false -> ends_with_space t = false -> trim t = t.
Proof.
  intros H1 H2. unfold trim. rewrite (trim_left_fixed t H1).
  apply trim_right_fixed, H2.
Qed.

Lemma trim_trim (s : string) : trim (trim s) = trim s.
Proof.
  apply trim_fixed.
  - apply trim_right_starts, trim_left_starts.
  - apply trim_right_ends.
Qed.

(** X1: [trim] removes nothing but white space, from both ends, and leaves
    a text that neither starts nor ends with white space. *)
Theorem trim_spec (s : string) :
  exists l r,
    s = (l ++ trim s ++ r)%string /\
    all_space l = true /\ all_space r = true /\
    starts_with_space (trim s) = false /\ ends_with_space (trim s) = false.
Proof.
  destruct (trim_split s) as (l & r & Hs & Hl & Hr).
  exists l, r. repeat split; auto.
  - apply trim_right_starts, trim_left_starts.
  - apply trim_right_ends.
Qed.

(** X2: [trim] is idempotent, and a text that neither starts nor ends with
    white space is left as it is. *)
Theorem trim_idempotent (s : string) :
  trim (trim s) = trim s /\
  (forall t, starts_with_space t = false -> ends_with_space t = false -> trim t = t).
Proof.
  split.
  - apply trim_fixed.
    + apply trim_right_starts, trim_left_starts.
    + apply trim_right_ends.
  - intros t Hstart Hend. unfold trim.
    rewrite (trim_left_fixed t Hstart). apply trim_right_fixed, Hend.
Qed.

End TrimLaws.

(** ** [parseFloat] and white space *)

Module WhitespaceFacts.

Import StringFacts TrimLaws.

Lemma space_not_digit (c : ascii) : is_space c = true -> is_digit c = false.
Proof.
  destruct (is_digit c) eqn:E; [|reflexivity].
  rewrite (digit_not_space c E). discriminate.
Qed.

Lemma space_not_scanned (c : ascii) :
  is_space c = true ->
  Ascii.eqb c "." = false /\ (Ascii.eqb c "e" || Ascii.eqb c "E")%bool = false /\
  forall r, take_sign (String c r) = (false, String c r).
Proof.
  destruct c as [[] [] [] [] [] [] [] []]; simpl; intros H;
    first [discriminate H | repeat split; reflexivity].
Qed.

Lemma all_space_head (r : string) :
  all_space r = true ->
  r = ""%string \/ exists c r', r = String c r' /\ is_space c = true.
Proof.
  destruct r as [|c r']; [now left|]. simpl. intros H.
  apply andb_true_iff in H as [Hc _]. right. now exists c, r'.
Qed.

Lemma trim_left_all_space (r : string) : all_space r = true -> trim_left r = ""%string.
Proof.
  induction r as [|c r IH]; simpl; [reflexivity|]. intros H.
  apply andb_true_iff in H as [Hc Hr]. now rewrite Hc, IH.
Qed.

Lemma trim_right_all_space (r : string) : all_space r = true -> trim_right r = ""%string.
Proof.
  induction r as [|c r IH]; simpl; [reflexivity|]. intros H.
  apply andb_true_iff in H as [Hc Hr]. now rewrite (IH Hr), Hc.
Qed.

Lemma trim_left_space_prefix (l x : string) :
  all_space l = true -> trim_left (l ++ x) = trim_left x.
Proof.
  induction l as [|c l IH]; simpl; [reflexivity|]. intros H.
  apply andb_true_iff in H as [Hc Hl]. now rewrite Hc, IH.
Qed.

Lemma trim_right_space_suffix (x r : string) :
  all_space r = true -> trim_right (x ++ r) = trim_right x.
Proof.
  intros Hr. induction x as [|c x IH].
  - simpl. now apply trim_right_all_space.
  - change (String c x ++ r)%string with (String c (x ++ r)).
    now rewrite !trim_right_cons, IH.
Qed.

(** White space after the text is either kept whole behind what
    [trim_left] leaves, or disappears with a text that is all white space. *)
Lemma trim_left_space_suffix (x r : string) :
  all_space r = true ->
  exists r', all_space r' = true /\ trim_left (x ++ r) = (trim_left x ++ r')%string.
Proof.
  intros Hr. induction x as [|c x (r' & Hr' & IH)]; simpl.
  - exists ""%string. split; [reflexivity|]. now apply trim_left_all_space.
  - destruct (is_space c).
    + exists r'. split; [exact Hr' | exact IH].
    + exists r. split; [exact Hr | reflexivity].
Qed.

Lemma take_sign_space_suffix (x r : string) :
  all_space r = true ->
  take_sign (x ++ r) = (fst (take_sign x), (snd (take_sign x) ++ r)%string).
Proof.
  intros Hr. destruct x as [|c x].
  - simpl. destruct (all_space_head r Hr) as [-> | (c & r' & -> & Hc)];
      [reflexivity|].
    now rewrite (proj2 (proj2 (space_not_scanned c Hc))).
  - destruct c as [[] [] [] [] [] [] [] []]; reflexivity.
Qed.

Lemma prefix_space_suffix (p : string) :
  no_space p = true ->
  forall y r, all_space r = true -> prefix p (y ++ r) = prefix p y.
Proof.
  induction p as [|a p IH]; intros Hp y r Hr.
  - destruct (y ++ r)%string, y; reflexivity.
  - simpl in Hp. apply andb_true_iff in Hp as [Ha Hp].
    apply negb_true_iff in Ha.
    destruct y as [|b y]; simpl.
    + destruct (all_space_head r Hr) as [-> | (c & r' & -> & Hc)];
        [reflexivity|].
      simpl. destruct (ascii_dec a c) as [->|_]; [congruence | reflexivity].
    + destruct (ascii_dec a b); [now apply IH | reflexivity].
Qed.

Lemma span_digits_space_suffix (y r : string) :
  all_space r = true ->
  span_digits (y ++ r) = (fst (span_digits y), (snd (span_digits y) ++ r)%string).
Proof.
  intros Hr. induction y as [|c y IH]; simpl.
  - destruct (all_space_head r Hr) as [-> | (c & r' & -> & Hc)];
      [reflexivity|].
    simpl. now rewrite (space_not_digit c Hc).
  - destruct (is_digit c); [|reflexivity].
    rewrite IH. destruct (span_digits y). reflexivity.
Qed.

Lemma scan_mantissa_space_suffix (y r : string) :
  all_space r = true ->
  scan_mantissa (y ++ r) =
    (fst (scan_mantissa y), (snd (scan_mantissa y) ++ r)%string).
Proof.
  intros Hr. unfold scan_mantissa.
  rewrite (span_digits_space_suffix y r Hr).
  destruct (span_digits y) as [ip s3]. cbn [fst snd].
  destruct s3 as [|c s3].
  - simpl. destruct (all_space_head r Hr) as [-> | (c & r' & -> & Hc)];
      [reflexivity|].
    now rewrite (proj1 (space_not_scanned c Hc)).
  - cbn [append]. destruct (Ascii.eqb c "."); [|reflexivity].
    rewrite (span_digits_space_suffix s3 r Hr).
    destruct (span_digits s3). reflexivity.
Qed.

Lemma scan_exponent_space_suffix (y r : string) :
  all_space r = true ->
  fst (scan_exponent (y ++ r)) = fst (scan_exponent y).
Proof.
  intros Hr. destruct y as [|c y].
  - simpl. destruct (all_space_head r Hr) as [-> | (c & r' & -> & Hc)];
      [reflexivity|].
    simpl. now rewrite (proj1 (proj2 (space_not_scanned c Hc))).
  - cbn [append scan_exponent].
    destruct (Ascii.eqb c "e" || Ascii.eqb c "E")%bool; [|reflexivity].
    rewrite (take_sign_space_suffix y r Hr).
    destruct (take_sign y) as [neg y1]. cbn [fst snd].
    rewrite (span_digits_space_suffix y1 r Hr).
    destruct (span_digits y1) as [ds rest]. cbn [fst snd].
    destruct ds; reflexivity.
Qed.

(** The part of [parseFloat] after the leading white space. *)
Lemma parseFloat_body_space_suffix (x r : string) :
  all_space r = true ->
  (let (neg, s2) := take_sign (x ++ r) in
   if prefix "Infinity" s2 then S754_infinity neg else
   let '(ip, fp, s4) := scan_mantissa s2 in
   match (ip ++ fp)%string with
   | EmptyString => NaN
   | String a b =>
       to_number neg (digits_value 0 (String a b))
                 (fst (scan_exponent s4) - Z.of_nat (String.length fp))
   end) =
  (let (neg, s2) := take_sign x in
   if prefix "Infinity" s2 then S754_infinity neg else
   let '(ip, fp, s4) := scan_mantissa s2 in
   match (ip ++ fp)%string with
   | EmptyString => NaN
   | String a b =>
       to_number neg (digits_value 0 (String a b))
                 (fst (scan_exponent s4) - Z.of_nat (String.length fp))
   end).
Proof.
  intros Hr. rewrite (take_sign_space_suffix x r Hr).
  destruct (take_sign x) as [neg s2]. cbn [fst snd].
  rewrite (prefix_space_suffix "Infinity" eq_refl s2 r Hr).
  destruct (prefix "Infinity" s2); [reflexivity|].
  rewrite (scan_mantissa_space_suffix s2 r Hr).
  destruct (scan_mantissa s2) as [[ip fp] s4]. cbn [fst snd].
  now rewrite (scan_exponent_space_suffix s4 r Hr).
Qed.

Lemma parseFloat_space_suffix (x r : string) :
  all_space r = true -> parseFloat (x ++ r) = parseFloat x.
Proof.
  intros Hr. unfold parseFloat.
  destruct (trim_left_space_suffix x r Hr) as (r' & Hr' & ->).
  apply parseFloat_body_space_suffix, Hr'.
Qed.

Lemma parseFloat_space_prefix (l x : string) :
  all_space l = true -> parseFloat (l ++ x) = parseFloat x.
Proof.
  intros Hl. unfold parseFloat. now rewrite (trim_left_space_prefix l x Hl).
Qed.

Lemma parseFloat_trim (s : string) : parseFloat (trim s) = parseFloat s.
Proof.
  destruct (trim_split s) as (l & r & Hs & Hl & Hr).
  rewrite Hs at 2.
  rewrite (parseFloat_space_prefix l _ Hl).
  now rewrite (parseFloat_space_suffix (trim s) r Hr).
Qed.

Lemma trim_padded (l s r : string) :
  all_space l = true -> all_space r = true ->
  trim (l ++ s ++ r) = trim s.
Proof.
  intros Hl Hr. unfold trim. rewrite (trim_left_space_prefix l _ Hl).
  destruct (trim_left_space_suffix s r Hr) as (r' & Hr' & ->).
  now apply trim_right_space_suffix.
Qed.

End WhitespaceFacts.

(** ** [parseTimeString], completely *)

Module TimeParserLaws.

Import StringFacts ColonBranch TrimLaws WhitespaceFacts.

Lemma parseTimeString_eq (s : string) :
  parseTimeString s =
    if isNaN (parseFloat s) then Throw (InvalidTimeFormat (trim s))
    else Return (parseFloat s).
Proof.
  unfold parseTimeString. rewrite (parseFloat_trim s).
  destruct (isNaN (parseFloat s)) eqn:E; [|reflexivity].
  cbn [negb].
  destruct (split_head ":" (trim s)) as (p0 & rest & u & Hs & Hu).
  rewrite Hs. destruct rest as [|p1 [|p2 [|p3 rest]]]; try reflexivity.
  destruct (isNaN (parseInt10 p0)) eqn:E0; [reflexivity|].
  pose proof (parseInt10_prefix p0 u E0) as Hc.
  rewrite <- Hu, (parseFloat_trim s), E in Hc. discriminate Hc.
Qed.

(** X3: [parseTimeString] is [parseFloat] with an exception in place of
    NaN: it returns [parseFloat] of its argument when that is a number, and
    otherwise throws the invalid-time-format error with the trimmed text.
    The HH:MM:SS branch never produces the result. *)
Theorem parseTimeString_is_parseFloat (s : string) :
  parseTimeString s =
    if isNaN (parseFloat s) then Throw (InvalidTimeFormat (trim s))
    else Return (parseFloat s).
Proof.
  unfold parseTimeString. rewrite (parseFloat_trim s).
  destruct (isNaN (parseFloat s)) eqn:E; [|reflexivity].
  cbn [negb].
  destruct (split_head ":" (trim s)) as (p0 & rest & u & Hs & Hu).
  rewrite Hs. destruct rest as [|p1 [|p2 [|p3 rest]]]; try reflexivity.
  destruct (isNaN (parseInt10 p0)) eqn:E0; [reflexivity|].
  pose proof (parseInt10_prefix p0 u E0) as Hc.
  rewrite <- Hu, (parseFloat_trim s), E in Hc. discriminate Hc.
Qed.

(** X4: white space around a timestamp never matters, neither for the
    value returned nor for the error thrown. *)
Theorem parseTimeString_padded (l s r : string) :
  all_space l = true -> all_space r = true ->
  parseTimeString (l ++ s ++ r) = parseTimeString s.
Proof.
  intros Hl Hr. unfold parseTimeString. now rewrite (trim_padded l s r Hl Hr).
Qed.

Lemma parseTimeString_padded_witness :
  all_space " " = true /\ all_space "  " = true /\
  parseTimeString (" " ++ "12.5" ++ "  ") = parseTimeString "12.5".
Proof.
  split; [reflexivity|]. split; [reflexivity|].
  exact (parseTimeString_padded " " "12.5" "  " eq_refl eq_refl).
Defined.

End TimeParserLaws.

(** ** The stages before the insertion loop *)

Section StageLaws.

Variable Seq : Type.

Lemma log_only_ret {A} (a : A) : log_only (@ret Seq A a).
Proof.
  intros w. simpl. repeat split. exists []. now rewrite app_nil_r.
Qed.

Lemma log_only_throw {A} (e : JSError) : log_only (@throw Seq A e).
Proof.
  intros w. simpl. repeat split. exists []. now rewrite app_nil_r.
Qed.

Lemma log_only_log (message : Message) (type : LogType) :
  type <> error -> log_only (@log Seq message type).
Proof.
  intros Ht w. destruct type; simpl; repeat split;
    first [ exists []; now rewrite app_nil_r
          | eexists; split; [reflexivity | now repeat constructor] ].
Qed.

Lemma log_only_bind {A B} (m : M Seq A) (k : A -> M Seq B) :
  log_only m -> (forall a, log_only (k a)) -> log_only (bind m k).
Proof.
  intros Hm Hk w. unfold bind.
  destruct (Hm w) as (Hc & Ha & msgs & Hl & Hf).
  destruct (m w) as [[a|e] w1]; cbn [fst snd] in *.
  - destruct (Hk a w1) as (Hc2 & Ha2 & msgs2 & Hl2 & Hf2).
    repeat split; try congruence.
    exists (msgs ++ msgs2). split.
    + now rewrite Hl2, Hl, app_assoc.
    + apply Forall_app. auto.
  - repeat split; auto. now exists msgs.
Qed.

Lemma throws_only_bind {A B} (P : JSError -> Prop) (m : M Seq A) (k : A -> M Seq B) :
  throws_only P m -> (forall a, throws_only P (k a)) -> throws_only P (bind m k).
Proof.
  intros Hm Hk w e. unfold bind. specialize (Hm w).
  destruct (m w) as [[a|e'] w1]; cbn [fst snd] in *.
  - apply Hk.
  - intros H. injection H as <-. now apply Hm.
Qed.

Lemma throws_only_log (P : JSError -> Prop) (message : Message) (type : LogType) :
  throws_only P (@log Seq message type).
Proof. intros w e. destruct type; discriminate. Qed.

Lemma throws_only_ret {A} (P : JSError -> Prop) (a : A) : throws_only P (@ret Seq A a).
Proof. intros w e. discriminate. Qed.

Lemma throws_only_throw {A} (P : JSError -> Prop) (e : JSError) :
  P e -> throws_only P (@throw Seq A e).
Proof. intros He w e' H. simpl in H. now injection H as <-. Qed.

Lemma log_only_readCSV_loop (lines : list string) :
  forall isFirstLine lineNumber data,
    log_only (@readCSV_loop Seq lines isFirstLine lineNumber data).
Proof.
  induction lines as [|line rest IH]; intros isFirstLine lineNumber data;
    cbn [readCSV_loop].
  - apply log_only_ret.
  - destruct (_ || _)%bool; [apply IH|].
    destruct isFirstLine; destruct (_ <? 2).
    + apply log_only_throw.
    + apply IH.
    + apply log_only_bind; [apply log_only_log; discriminate | intros _; apply IH].
    + apply IH.
Qed.

Lemma throws_only_readCSV_loop (lines : list string) :
  forall isFirstLine lineNumber data,
    throws_only (fun e => e = HeaderInvalid)
                (@readCSV_loop Seq lines isFirstLine lineNumber data).
Proof.
  induction lines as [|line rest IH]; intros isFirstLine lineNumber data;
    cbn [readCSV_loop].
  - apply throws_only_ret.
  - destruct (_ || _)%bool; [apply IH|].
    destruct isFirstLine; destruct (_ <? 2).
    + now apply throws_only_throw.
    + apply IH.
    + apply throws_only_bind; [apply throws_only_log | intros _; apply IH].
    + apply IH.
Qed.

Lemma log_only_parseCSVData_loop (data : list (list string)) :
  forall i markers, log_only (@parseCSVData_loop Seq data i markers).
Proof.
  induction data as [|row rest IH]; intros i markers; cbn [parseCSVData_loop].
  - apply log_only_ret.
  - destruct (falsy (nth_error row 0)).
    + apply log_only_bind; [apply log_only_log; discriminate | intros _; apply IH].
    + destruct (falsy (nth_error row 1)).
      * apply log_only_bind; [apply log_only_log; discriminate | intros _; apply IH].
      * apply IH.
Qed.

Lemma throws_only_parseCSVData_loop (data : list (list string)) :
  forall i markers, throws_only (fun _ => False) (@parseCSVData_loop Seq data i markers).
Proof.
  induction data as [|row rest IH]; intros i markers; cbn [parseCSVData_loop].
  - apply throws_only_ret.
  - destruct (falsy (nth_error row 0)).
    + apply throws_only_bind; [apply throws_only_log | intros _; apply IH].
    + destruct (falsy (nth_error row 1)).
      * apply throws_only_bind; [apply throws_only_log | intros _; apply IH].
      * apply IH.
Qed.

Lemma log_only_readCSV (env : Env) (filePath : string) :
  log_only (@readCSV Seq env filePath).
Proof.
  unfold readCSV. destruct (negb _);
    [apply log_only_throw | apply log_only_readCSV_loop].
Qed.

Lemma throws_only_readCSV (env : Env) (filePath : string) :
  throws_only (fun e => e = FileDoesNotExist filePath \/ e = HeaderInvalid)
              (@readCSV Seq env filePath).
Proof.
  unfold readCSV. destruct (negb _).
  - apply throws_only_throw. now left.
  - intros w e H. right. exact (throws_only_readCSV_loop _ _ _ _ w e H).
Qed.

Lemma log_only_parseCSVData (data : list (list string)) :
  log_only (@parseCSVData Seq data).
Proof.
  unfold parseCSVData. apply log_only_bind.
  - apply log_only_parseCSVData_loop.
  - intros markers. destruct (_ =? 0); [apply log_only_throw | apply log_only_ret].
Qed.

Lemma throws_only_parseCSVData (data : list (list string)) :
  throws_only (fun e => e = NoValidMarkers) (@parseCSVData Seq data).
Proof.
  unfold parseCSVData. apply throws_only_bind.
  - intros w e H.
    destruct (throws_only_parseCSVData_loop data 0 [] w e H).
  - intros markers. destruct (_ =? 0);
      [now apply throws_only_throw | apply throws_only_ret].
Qed.

Lemma log_only_selectCSVFile (env : Env) : log_only (@selectCSVFile Seq env).
Proof.
  unfold selectCSVFile. destruct (openDialog env).
  - apply log_only_bind; [apply log_only_log; discriminate | intros _; apply log_only_ret].
  - apply log_only_ret.
Qed.

End StageLaws.

(** X5: reading the file and validating the rows never touch the host
    sequence or the marker sink; they only append lines to the console, and
    never an error line. The only exceptions they throw are the missing
    file, the invalid header and the absence of any valid marker. *)
Theorem csv_stages_only_log (Seq : Type) (env : Env) (filePath : string)
        (data : list (list string)) :
  log_only (@readCSV Seq env filePath) /\
  log_only (@parseCSVData Seq data) /\
  throws_only (fun e => e = FileDoesNotExist filePath \/ e = HeaderInvalid)
              (@readCSV Seq env filePath) /\
  throws_only (fun e => e = NoValidMarkers) (@parseCSVData Seq data).
Proof.
  split; [apply log_only_readCSV|].
  split; [apply log_only_parseCSVData|].
  split; [apply throws_only_readCSV | apply throws_only_parseCSVData].
Qed.

(** ** CsvReader: what [readCSV] returns *)

Section CsvReaderLaws.

Variable Seq : Type.

Lemma data_line_eq (line : string) :
  data_line line =
    (negb (blank_line line) &&
     negb (Z.of_nat (List.length (map clean_column (split "," line))) <? 2))%bool.
Proof.
  unfold data_line, columns_of. now rewrite Z.ltb_antisym, negb_involutive.
Qed.

Lemma blank_line_trim (line : string) :
  blank_line line = true <-> trim line = ""%string.
Proof.
  unfold blank_line. rewrite orb_true_iff, !String.eqb_eq.
  split; [intros [->|H]; [reflexivity | exact H] | now right].
Qed.

(** Past the header, the rows are the columns of the data lines, in file
    order, after the rows that were there. *)
Lemma readCSV_loop_data (lines : list string) :
  forall lineNumber data (w : World Seq),
    fst (readCSV_loop lines false lineNumber data w) =
      Return (data ++ map columns_of (filter data_line lines)).
Proof.
  induction lines as [|line rest IH]; intros lineNumber data w;
    cbn [readCSV_loop filter].
  - simpl. now rewrite app_nil_r.
  - rewrite data_line_eq.
    change (String.eqb line "" || String.eqb (trim line) "")%bool
      with (blank_line line).
    destruct (blank_line line); cbn [negb andb]; [apply IH|].
    destruct (_ <? 2); cbn [negb].
    + unfold bind, log. cbn [fst snd]. apply IH.
    + rewrite IH. cbn [map]. now rewrite <- app_assoc.
Qed.

(** Before the header, blank lines are passed over; the first line that is
    not blank is the header. *)
Lemma readCSV_loop_header (pre : list string) (header : string) (rest : list string) :
  Forall (fun line => blank_line line = true) pre ->
  blank_line header = false ->
  forall lineNumber data (w : World Seq),
    exists lineNumber',
      readCSV_loop (pre ++ header :: rest) true lineNumber data w =
        if Z.of_nat (List.length (columns_of header)) <? 2
        then (Throw HeaderInvalid, w)
        else readCSV_loop rest false lineNumber' data w.
Proof.
  intros Hpre Hh. induction Hpre as [|line pre Hline _ IH];
    intros lineNumber data w; cbn [app readCSV_loop].
  - change (String.eqb header "" || String.eqb (trim header) "")%bool
      with (blank_line header).
    rewrite Hh. exists (lineNumber + 1). unfold columns_of.
    destruct (_ <? 2); reflexivity.
  - change (String.eqb line "" || String.eqb (trim line) "")%bool
      with (blank_line line).
    rewrite Hline. apply IH.
Qed.

Lemma readCSV_loop_wellformed (lines : list string) :
  forall isFirstLine lineNumber data (w w' : World Seq) rows,
    Forall (fun row => (2 <= List.length row)%nat /\
                       Forall (fun field => trim field = field) row) data ->
    readCSV_loop lines isFirstLine lineNumber data w = (Return rows, w') ->
    Forall (fun row => (2 <= List.length row)%nat /\
                       Forall (fun field => trim field = field) row) rows.
Proof.
  induction lines as [|line rest IH];
    intros isFirstLine lineNumber data w w' rows Hdata Hrun;
    cbn [readCSV_loop] in Hrun.
  - injection Hrun as <- _. exact Hdata.
  - destruct (_ || _)%bool; [exact (IH _ _ _ _ _ _ Hdata Hrun)|].
    destruct isFirstLine; destruct (_ <? 2) eqn:Hcols.
    + discriminate Hrun.
    + exact (IH _ _ _ _ _ _ Hdata Hrun).
    + unfold bind, log in Hrun. exact (IH _ _ _ _ _ _ Hdata Hrun).
    + refine (IH _ _ _ _ _ _ _ Hrun).
      apply Forall_app. split; [exact Hdata|].
      constructor; [|constructor]. split.
      * apply Z.ltb_ge in Hcols. lia.
      * apply Forall_map, Forall_forall. intros col _.
        apply TrimLaws.trim_trim.
Qed.

(** The line number of every missing-columns warning is the position, from
    1, of a line of the file that is not blank and has fewer than two
    columns. *)
Lemma readCSV_loop_warnings (lines : list string) :
  forall isFirstLine lineNumber data (w : World Seq) k,
    In (warning, MsgMissingColumns k)
       (console (snd (readCSV_loop lines isFirstLine lineNumber data w))) ->
    In (warning, MsgMissingColumns k) (console w) \/
    (lineNumber < k /\
     exists line,
       nth_error lines (Z.to_nat (k - lineNumber - 1)) = Some line /\
       blank_line line = false /\
       (List.length (columns_of line) < 2)%nat).
Proof.
  induction lines as [|line rest IH]; intros isFirstLine lineNumber data w k;
    cbn [readCSV_loop].
  - simpl. now left.
  - assert (Hrest : forall f d (w1 : World Seq),
       In (warning, MsgMissingColumns k)
          (console (snd (readCSV_loop rest f (lineNumber + 1) d w1))) ->
       In (warning, MsgMissingColumns k) (console w1) \/
       (lineNumber < k /\
        exists l,
          nth_error (line :: rest) (Z.to_nat (k - lineNumber - 1)) = Some l /\
          blank_line l = false /\ (List.length (columns_of l) < 2)%nat)).
    { intros f d w1 H.
      destruct (IH f (lineNumber + 1) d w1 k H) as [|(Hk & l & Hl & Hb & Hc)];
        [now left | right].
      split; [lia|]. exists l. split; [|auto].
      replace (Z.to_nat (k - lineNumber - 1))
        with (S (Z.to_nat (k - (lineNumber + 1) - 1))) by lia.
      exact Hl. }
    change (String.eqb line "" || String.eqb (trim line) "")%bool
      with (blank_line line).
    destruct (blank_line line) eqn:Hb; [apply Hrest|].
    destruct isFirstLine; destruct (_ <? 2) eqn:Hcols.
    + simpl. now left.
    + apply Hrest.
    + unfold bind, log. intros H.
      destruct (Hrest _ _ _ H) as [Hin|Hr]; [|now right].
      cbn [console] in Hin. apply in_app_or in Hin as [Hin|[Heq|[]]];
        [now left|].
      injection Heq as <-. right. split; [lia|].
      exists line. replace (lineNumber + 1 - lineNumber - 1) with 0 by lia.
      split; [reflexivity|]. split; [exact Hb|].
      apply Z.ltb_lt in Hcols. unfold columns_of. lia.
    + apply Hrest.
Qed.

End CsvReaderLaws.

(** X6: when the first line that is not blank has at least two columns, it
    is the header and is dropped, and [readCSV] returns the cleaned columns
    of the later lines that are not blank and have at least two columns, in
    file order; blank lines before the header are passed over. *)
Theorem readCSV_rows (Seq : Type) (env : Env) (filePath : string) (w : World Seq)
        (pre : list string) (header : string) (rest : list string) :
  file_exists (files env filePath) = true ->
  file_lines (file_text (files env filePath)) = pre ++ header :: rest ->
  Forall (fun line => blank_line line = true) pre ->
  blank_line header = false ->
  (2 <= List.length (split "," header))%nat ->
  fst (readCSV env filePath w) = Return (map columns_of (filter data_line rest)).
Proof.
  intros Hex Hlines Hpre Hh Hcols. unfold readCSV. rewrite Hex, Hlines.
  cbn [negb].
  destruct (readCSV_loop_header Seq pre header rest Hpre Hh 0 [] w) as (n & ->).
  replace (Z.of_nat (List.length (columns_of header)) <? 2) with false.
  - apply (readCSV_loop_data Seq rest n [] w).
  - symmetry. apply Z.ltb_ge. unfold columns_of. rewrite length_map. lia.
Qed.

Lemma readCSV_rows_witness :
  fst (readCSV example_env "markers.csv" empty_world) =
    Return (map columns_of
              (filter data_line ["10,Goal"; ",Empty"; "20,Save"]%string)).
Proof.
  apply (readCSV_rows _ example_env "markers.csv" empty_world [] "t,c"
           ["10,Goal"; ",Empty"; "20,Save"]%string).
  - reflexivity.
  - reflexivity.
  - constructor.
  - reflexivity.
  - simpl. lia.
Defined.

(** X7: when the first line that is not blank has fewer than two columns,
    [readCSV] throws the invalid-header error and leaves the console, the
    sequence and the sink as they were. *)
Theorem readCSV_header_invalid (Seq : Type) (env : Env) (filePath : string)
        (w : World Seq) (pre : list string) (header : string) (rest : list string) :
  file_exists (files env filePath) = true ->
  file_lines (file_text (files env filePath)) = pre ++ header :: rest ->
  Forall (fun line => blank_line line = true) pre ->
  blank_line header = false ->
  (List.length (split "," header) < 2)%nat ->
  readCSV env filePath w = (Throw HeaderInvalid, w).
Proof.
  intros Hex Hlines Hpre Hh Hcols. unfold readCSV. rewrite Hex, Hlines.
  cbn [negb].
  destruct (readCSV_loop_header Seq pre header rest Hpre Hh 0 [] w) as (n & ->).
  replace (Z.of_nat (List.length (columns_of header)) <? 2) with true;
    [reflexivity|].
  symmetry. apply Z.ltb_lt. unfold columns_of. rewrite length_map. lia.
Qed.

Lemma readCSV_header_invalid_witness :
  readCSV (mkEnv (Some "markers.csv"%string)
                 (fun _ => mkFile true (LF ++ "time" ++ LF ++ "10,Goal")%string))
          "markers.csv" empty_world
  = (Throw HeaderInvalid, empty_world).
Proof.
  apply (readCSV_header_invalid _ _ "markers.csv" empty_world
           [""%string] "time" ["10,Goal"%string]).
  - reflexivity.
  - reflexivity.
  - repeat constructor.
  - reflexivity.
  - simpl. lia.
Defined.

(** X8: a file without any non-blank line (an empty file among them) has no
    header to check: [readCSV] returns no row, throws nothing and logs
    nothing. *)
Theorem readCSV_blank_file (Seq : Type) (env : Env) (filePath : string)
        (w : World Seq) :
  file_exists (files env filePath) = true ->
  Forall (fun line => blank_line line = true)
         (file_lines (file_text (files env filePath))) ->
  readCSV env filePath w = (Return [], w).
Proof.
  intros Hex Hblank. unfold readCSV. rewrite Hex. cbn [negb].
  apply readCSV_loop_blank.
  apply (Forall_impl _ (P := fun line => blank_line line = true));
    [|exact Hblank].
  intros line. apply blank_line_trim.
Qed.

Lemma readCSV_blank_file_witness :
  readCSV (mkEnv (Some "markers.csv"%string) (fun _ => mkFile true ""%string))
          "markers.csv" empty_world
  = (Return [], empty_world).
Proof.
  apply (readCSV_blank_file _ _ "markers.csv" empty_world).
  - reflexivity.
  - constructor.
Defined.

(** X9: every row that [readCSV] returns has at least two fields, and every
    field is trimmed: trimming it again changes nothing. *)
Theorem readCSV_rows_wellformed (Seq : Type) (env : Env) (filePath : string)
        (w w' : World Seq) (rows : list (list string)) :
  readCSV env filePath w = (Return rows, w') ->
  Forall (fun row => (2 <= List.length row)%nat /\
                     Forall (fun field => trim field = field) row) rows.
Proof.
  unfold readCSV. destruct (negb _); [discriminate|].
  apply readCSV_loop_wellformed. constructor.
Qed.

Lemma readCSV_rows_wellformed_witness :
  Forall (fun row => (2 <= List.length row)%nat /\
                     Forall (fun field => trim field = field) row)
         [["10"; "Goal"]; [""; "Empty"]; ["20"; "Save"]]%string.
Proof.
  apply (readCSV_rows_wellformed _ example_env "markers.csv"
           empty_world empty_world).
  reflexivity.
Defined.

(** X10: the line number of every missing-columns warning that [readCSV]
    writes is the position in the file, counted from 1 and counting blank
    lines, of a line that is not blank and has fewer than two columns. *)
Theorem readCSV_warning_line (Seq : Type) (env : Env) (filePath : string)
        (w : World Seq) (k : Z) :
  In (warning, MsgMissingColumns k) (console (snd (readCSV env filePath w))) ->
  ~ In (warning, MsgMissingColumns k) (console w) ->
  1 <= k /\
  exists line,
    nth_error (file_lines (file_text (files env filePath))) (Z.to_nat (k - 1))
      = Some line /\
    blank_line line = false /\ (List.length (columns_of line) < 2)%nat.
Proof.
  unfold readCSV. destruct (negb _); [simpl; tauto|].
  intros Hin Hnew.
  destruct (readCSV_loop_warnings Seq _ _ _ _ _ _ Hin)
    as [|(Hk & line & Hl & Hb & Hc)]; [tauto|].
  split; [lia|]. exists line.
  replace (k - 1) with (k - 0 - 1) by lia. auto.
Qed.

Lemma readCSV_warning_line_witness :
  1 <= 4 /\
  exists line,
    nth_error (file_lines ("t,c" ++ LF ++ "10,Goal" ++ LF ++ LF ++ "oops" ++ LF)%string)
              (Z.to_nat (4 - 1)) = Some line /\
    blank_line line = false /\ (List.length (columns_of line) < 2)%nat.
Proof.
  apply (readCSV_warning_line _
           (mkEnv (Some "markers.csv"%string)
                  (fun _ => mkFile true
                     ("t,c" ++ LF ++ "10,Goal" ++ LF ++ LF ++ "oops" ++ LF)%string))
           "markers.csv" empty_world 4).
  - left. reflexivity.
  - intros [].
Defined.

(** ** MarkerRowParser: what [parseCSVData] returns *)

Section MarkerRowParserLaws.

Variable Seq : Type.

Lemma parseCSVData_loop_markers (data : list (list string)) :
  forall i markers (w : World Seq),
    fst (parseCSVData_loop data i markers w) =
      Return (markers ++ rows_to_markers data).
Proof.
  induction data as [|row rest IH]; intros i markers w;
    cbn [parseCSVData_loop rows_to_markers].
  - simpl. now rewrite app_nil_r.
  - unfold marker_of_row.
    destruct (nth_error row 0) as [t|]; cbn [falsy].
    + destruct (String.eqb t ""); cbn [orb].
      * destruct (nth_error row 1); unfold bind, log; cbn [fst snd]; apply IH.
      * destruct (nth_error row 1) as [c|]; cbn [falsy].
        -- destruct (String.eqb c "").
           ++ unfold bind, log; cbn [fst snd]. apply IH.
           ++ rewrite IH. now rewrite <- app_assoc.
        -- unfold bind, log; cbn [fst snd]. apply IH.
    + unfold bind, log; cbn [fst snd]. apply IH.
Qed.

Lemma marker_of_row_fields (row : list string) (m : Marker) :
  marker_of_row row = Some m ->
  timestamp m <> ""%string /\ comment m <> ""%string /\
  nth_error row 0 = Some (timestamp m) /\ nth_error row 1 = Some (comment m).
Proof.
  unfold marker_of_row.
  destruct (nth_error row 0) as [t|]; [|discriminate].
  destruct (nth_error row 1) as [c|]; [|discriminate].
  destruct (String.eqb t "") eqn:Et; [discriminate|].
  destruct (String.eqb c "") eqn:Ec; [discriminate|].
  intros H. injection H as <-. simpl.
  apply String.eqb_neq in Et, Ec. auto.
Qed.

Lemma marker_of_row_none (row : list string) :
  marker_of_row row = None <->
  falsy (nth_error row 0) = true \/ falsy (nth_error row 1) = true.
Proof.
  unfold marker_of_row.
  destruct (nth_error row 0) as [t|]; destruct (nth_error row 1) as [c|];
    cbn [falsy]; try tauto.
  destruct (String.eqb t ""); destruct (String.eqb c ""); cbn [orb];
    split; auto; try discriminate; intros [H|H]; discriminate H.
Qed.

Lemma rows_to_markers_fields (data : list (list string)) :
  Forall (fun m => timestamp m <> ""%string /\ comment m <> ""%string /\
                   exists row, In row data /\
                     nth_error row 0 = Some (timestamp m) /\
                     nth_error row 1 = Some (comment m))
         (rows_to_markers data).
Proof.
  induction data as [|row rest IH]; cbn [rows_to_markers]; [constructor|].
  assert (IH' : Forall (fun m => timestamp m <> ""%string /\ comment m <> ""%string /\
                   exists r, In r (row :: rest) /\
                     nth_error r 0 = Some (timestamp m) /\
                     nth_error r 1 = Some (comment m))
                  (rows_to_markers rest)).
  { apply (Forall_impl _ (P := fun m => timestamp m <> ""%string /\ comment m <> ""%string /\
                   exists r, In r rest /\
                     nth_error r 0 = Some (timestamp m) /\
                     nth_error r 1 = Some (comment m))); [|exact IH].
    intros m (H1 & H2 & r & Hr & H3). repeat split; auto.
    exists r. split; [now right | exact H3]. }
  destruct (marker_of_row row) as [m|] eqn:E; [|exact IH'].
  constructor; [|exact IH'].
  destruct (marker_of_row_fields row m E) as (H1 & H2 & H3 & H4).
  repeat split; auto. exists row. split; [now left | auto].
Qed.

Lemma rows_to_markers_nil (data : list (list string)) :
  rows_to_markers data = [] <->
  Forall (fun row => falsy (nth_error row 0) = true \/
                     falsy (nth_error row 1) = true) data.
Proof.
  induction data as [|row rest IH]; cbn [rows_to_markers].
  - split; [constructor | reflexivity].
  - destruct (marker_of_row row) as [m|] eqn:E.
    + split; [discriminate|]. intros H. inversion H as [|? ? Hrow _]; subst.
      apply marker_of_row_none in Hrow. congruence.
    + rewrite IH. split.
      * intros H. constructor; [now apply marker_of_row_none | exact H].
      * intros H. now inversion H.
Qed.

Lemma parseCSVData_result (data : list (list string)) (w : World Seq) :
  fst (parseCSVData data w) =
    match rows_to_markers data with
    | [] => Throw NoValidMarkers
    | markers => Return markers
    end.
Proof.
  unfold parseCSVData, bind.
  pose proof (parseCSVData_loop_markers data 0 [] w) as H.
  destruct (parseCSVData_loop data 0 [] w) as [c w1]. simpl in H. subst c.
  destruct (rows_to_markers data) as [|m ms]; reflexivity.
Qed.

End MarkerRowParserLaws.

(** X11: the records that [parseCSVData] returns are, in order, the first
    two fields of the rows in which both are present and not empty; there is
    at least one record, and no record has an empty timestamp or comment. *)
Theorem parseCSVData_markers (Seq : Type) (data : list (list string))
        (w w' : World Seq) (markers : list Marker) :
  parseCSVData data w = (Return markers, w') ->
  markers = rows_to_markers data /\ markers <> [] /\
  Forall (fun m => timestamp m <> ""%string /\ comment m <> ""%string /\
                   exists row, In row data /\
                     nth_error row 0 = Some (timestamp m) /\
                     nth_error row 1 = Some (comment m)) markers.
Proof.
  intros H. pose proof (parseCSVData_result Seq data w) as Hr.
  rewrite H in Hr. cbn [fst] in Hr.
  pose proof (rows_to_markers_fields data) as Hf.
  destruct (rows_to_markers data) as [|m ms]; [discriminate|].
  injection Hr as ->. repeat split; [discriminate | exact Hf].
Qed.

Lemma parseCSVData_markers_witness :
  [mkMarker "10" "Goal"; mkMarker "20" "Save"] =
    rows_to_markers [["10"; "Goal"]; [""; "Empty"]; ["20"; "Save"; "extra"]]%string /\
  [mkMarker "10" "Goal"; mkMarker "20" "Save"] <> [] /\
  Forall (fun m => timestamp m <> ""%string /\ comment m <> ""%string /\
                   exists row,
                     In row [["10"; "Goal"]; [""; "Empty"]; ["20"; "Save"; "extra"]]%string /\
                     nth_error row 0 = Some (timestamp m) /\
                     nth_error row 1 = Some (comment m))
         [mkMarker "10" "Goal"; mkMarker "20" "Save"].
Proof.
  apply (parseCSVData_markers _
           [["10"; "Goal"]; [""; "Empty"]; ["20"; "Save"; "extra"]]%string
           empty_world
           (mkWorld [(warning, MsgEmptyTimestamp 3)] (Some []) [])).
  reflexivity.
Defined.

(** X12: [parseCSVData] throws the no-valid-markers error exactly when in
    every row the first or the second field is missing or empty; an empty
    list of rows is such a case. *)
Theorem parseCSVData_no_valid_markers (Seq : Type) (data : list (list string))
        (w : World Seq) :
  fst (parseCSVData data w) = Throw NoValidMarkers <->
  Forall (fun row => falsy (nth_error row 0) = true \/
                     falsy (nth_error row 1) = true) data.
Proof.
  rewrite (parseCSVData_result Seq data w), <- rows_to_markers_nil.
  destruct (rows_to_markers data); split; auto; discriminate.
Qed.

(** ** ImportPipeline: the trace of [insertMarkers] *)

Section InsertLaws.

Variable Seq : Type.
Variable placeMarker : Seq -> number -> string -> Seq * bool.

Lemma insertMarkers_loop_trace (markers : list Marker) :
  forall (i ins skp : Z) (w : World Seq) (st : Seq),
    activeSequence w = Some st ->
    exists r w' warns,
      insertMarkers_loop Seq placeMarker markers i ins skp w = (Return r, w') /\
      activeSequence w' = Some (place_all placeMarker (parsed_args markers) st) /\
      console w' =
        console w ++ warns ++
        (if 0 <? skipped r then [(warning, MsgSkipped (skipped r))] else []) /\
      skipped r = skp + Z.of_nat (List.length warns) /\
      Forall (fun entry => exists row err,
                entry = (warning, MsgInsertFailed row err) /\ i + 2 <= row) warns.
Proof.
  induction markers as [|m rest IH]; intros i ins skp w st Hw.
  - exists (mkResult ins skp).
    destruct (0 <? skp) eqn:E.
    + exists (mkWorld (console w ++ [(warning, MsgSkipped skp)])
                      (activeSequence w) (calls w)), [].
      simpl. unfold bind, log, ret. rewrite E. simpl.
      repeat split; auto; try lia.
    + exists w, []. simpl. unfold bind, ret. rewrite E. simpl.
      rewrite app_nil_r. repeat split; auto; try lia.
  - cbn [insertMarkers_loop]. unfold bind at 1.
    destruct (parseTimeString (timestamp m)) as [t|e] eqn:Hp.
    + rewrite (insertMarker_parseable Seq placeMarker m i w t st Hp Hw).
      cbn [parsed_args]. rewrite Hp. unfold place_all. cbn [fold_left fst snd].
      destruct (placeMarker st t (comment m)) as [st' ok]. cbn [fst snd].
      destruct ok.
      * destruct (IH (i + 1) (ins + 1) skp
                     (mkWorld (console w ++ []) (Some st')
                              (calls w ++ [mkCall t (comment m) true]))
                     st' eq_refl)
          as (r & w' & warns & Hrun & Hact & Hcon & Hskp & Hall).
        rewrite Hrun. exists r, w', warns.
        cbn [console] in Hcon. rewrite app_nil_r in Hcon.
        repeat split; auto.
        apply (Forall_impl _ (P := fun entry => exists row err,
                 entry = (warning, MsgInsertFailed row err) /\ i + 1 + 2 <= row));
          [|exact Hall].
        intros entry (row & err & He & Hrow). exists row, err. split; [exact He | lia].
      * destruct (IH (i + 1) ins (skp + 1)
                     (mkWorld (console w ++ [(warning, MsgInsertFailed (i + 2) HostError)])
                              (Some st')
                              (calls w ++ [mkCall t (comment m) false]))
                     st' eq_refl)
          as (r & w' & warns & Hrun & Hact & Hcon & Hskp & Hall).
        rewrite Hrun.
        exists r, w', ((warning, MsgInsertFailed (i + 2) HostError) :: warns).
        cbn [console] in Hcon. rewrite <- app_assoc in Hcon.
        repeat split; auto.
        -- cbn [List.length]. lia.
        -- constructor.
           ++ exists (i + 2), HostError. split; [reflexivity | lia].
           ++ apply (Forall_impl _ (P := fun entry => exists row err,
                 entry = (warning, MsgInsertFailed row err) /\ i + 1 + 2 <= row));
                [|exact Hall].
              intros entry (row & err & He & Hrow). exists row, err.
              split; [exact He | lia].
    + rewrite (insertMarker_unparseable Seq placeMarker m i w e Hp).
      cbn [parsed_args]. rewrite Hp.
      destruct (IH (i + 1) ins (skp + 1)
                   (mkWorld (console w ++ [(warning, MsgInsertFailed (i + 2) e)])
                            (activeSequence w) (calls w))
                   st Hw)
        as (r & w' & warns & Hrun & Hact & Hcon & Hskp & Hall).
      rewrite Hrun.
      exists r, w', ((warning, MsgInsertFailed (i + 2) e) :: warns).
      cbn [console] in Hcon. rewrite <- app_assoc in Hcon.
      repeat split; auto.
      * cbn [List.length]. lia.
      * constructor.
        -- exists (i + 2), e. split; [reflexivity | lia].
        -- apply (Forall_impl _ (P := fun entry => exists row err,
             entry = (warning, MsgInsertFailed row err) /\ i + 1 + 2 <= row));
             [|exact Hall].
           intros entry (row & err & He & Hrow). exists row, err.
           split; [exact He | lia].
Qed.

Lemma parsed_args_numeric (markers : list Marker) :
  parsed_args markers =
    map (fun m => (parseFloat (timestamp m), comment m))
        (filter numeric_timestamp markers) /\
  unparseable markers =
    List.length (filter (fun m => negb (numeric_timestamp m)) markers).
Proof.
  induction markers as [|m rest (IH1 & IH2)]; [split; reflexivity|].
  cbn [parsed_args unparseable filter].
  rewrite (TimeParserLaws.parseTimeString_eq (timestamp m)).
  assert (En : numeric_timestamp m = negb (isNaN (parseFloat (timestamp m))))
    by reflexivity.
  rewrite En.
  destruct (isNaN (parseFloat (timestamp m))); cbn [negb map List.length];
    rewrite IH1, IH2; split; reflexivity.
Qed.

End InsertLaws.

(** X13: with an active sequence, [insertMarkers] leaves the sequence in
    the state reached by invoking the sink, in order, for every record
    whose timestamp parses, whether the invocations succeeded or not. *)
Theorem insertMarkers_final_sequence (Seq : Type)
        (placeMarker : Seq -> number -> string -> Seq * bool)
        (markers : list Marker) (w : World Seq) (st : Seq) :
  activeSequence w = Some st ->
  activeSequence (snd (insertMarkers Seq placeMarker markers w)) =
    Some (place_all placeMarker (parsed_args markers) st).
Proof.
  intros Hw. unfold insertMarkers. rewrite Hw.
  destruct (insertMarkers_loop_trace Seq placeMarker markers 0 0 0 w st Hw)
    as (r & w' & warns & Hrun & Hact & _).
  now rewrite Hrun.
Qed.

Lemma insertMarkers_final_sequence_witness :
  activeSequence
    (snd (insertMarkers _ recordingSink
            [mkMarker "10" "Goal"; mkMarker "abc" "Comment"; mkMarker "20" "Save"]
            empty_world)) =
  Some (place_all recordingSink
          (parsed_args [mkMarker "10" "Goal"; mkMarker "abc" "Comment";
                        mkMarker "20" "Save"]) []).
Proof.
  exact (insertMarkers_final_sequence _ recordingSink
           [mkMarker "10" "Goal"; mkMarker "abc" "Comment"; mkMarker "20" "Save"]
           empty_world [] eq_refl).
Defined.

(** X14: with an active sequence, [insertMarkers] writes one insert-failed
    warning per skipped record and nothing else, except for one closing
    line with the number of skipped records, written exactly when at least
    one record was skipped. *)
Theorem insertMarkers_warnings (Seq : Type)
        (placeMarker : Seq -> number -> string -> Seq * bool)
        (markers : list Marker) (w : World Seq) (st : Seq) :
  activeSequence w = Some st ->
  exists r w' warns,
    insertMarkers Seq placeMarker markers w = (Return r, w') /\
    console w' =
      console w ++ warns ++
      (if 0 <? skipped r then [(warning, MsgSkipped (skipped r))] else []) /\
    Z.of_nat (List.length warns) = skipped r /\
    Forall (fun entry => exists row err,
              entry = (warning, MsgInsertFailed row err) /\ 2 <= row) warns.
Proof.
  intros Hw. unfold insertMarkers. rewrite Hw.
  destruct (insertMarkers_loop_trace Seq placeMarker markers 0 0 0 w st Hw)
    as (r & w' & warns & Hrun & _ & Hcon & Hskp & Hall).
  exists r, w', warns. repeat split; auto; lia.
Qed.

Lemma insertMarkers_warnings_witness :
  exists r w' warns,
    insertMarkers _ rejectingSink
      [mkMarker "abc" "Comment"; mkMarker "20" "Save"]
      (mkWorld [] (Some tt) []) = (Return r, w') /\
    console w' =
      [] ++ warns ++
      (if 0 <? skipped r then [(warning, MsgSkipped (skipped r))] else []) /\
    Z.of_nat (List.length warns) = skipped r /\
    Forall (fun entry => exists row err,
              entry = (warning, MsgInsertFailed row err) /\ 2 <= row) warns.
Proof.
  exact (insertMarkers_warnings _ rejectingSink
           [mkMarker "abc" "Comment"; mkMarker "20" "Save"]
           (mkWorld [] (Some tt) []) tt eq_refl).
Defined.

(** X15: with an active sequence and a sink that always succeeds, the
    records inserted are exactly those for which [parseFloat] of the
    timestamp is a number, each placed at that number with its comment; the
    others are the skipped ones. *)
Theorem insertMarkers_numeric (Seq : Type)
        (placeMarker : Seq -> number -> string -> Seq * bool)
        (markers : list Marker) (w : World Seq) (st : Seq) :
  (forall seq time name, snd (placeMarker seq time name) = true) ->
  activeSequence w = Some st ->
  fst (insertMarkers Seq placeMarker markers w) =
    Return (mkResult
              (Z.of_nat (List.length (filter numeric_timestamp markers)))
              (Z.of_nat (List.length
                 (filter (fun m => negb (numeric_timestamp m)) markers)))) /\
  calls (snd (insertMarkers Seq placeMarker markers w)) =
    calls w ++
    map (fun m => mkCall (parseFloat (timestamp m)) (comment m) true)
        (filter numeric_timestamp markers).
Proof.
  intros Hok Hw.
  destruct (insertMarkers_all_succeed Seq placeMarker markers w st Hok Hw)
    as (w' & Hrun & Hcalls).
  destruct (parsed_args_numeric markers) as (Hpa & Hun).
  rewrite Hrun. cbn [fst snd]. rewrite Hcalls, Hun, Hpa, !length_map, map_map.
  split; reflexivity.
Qed.

Lemma insertMarkers_numeric_witness :
  fst (insertMarkers _ recordingSink
         [mkMarker "01:02:03" "Goal"; mkMarker "abc" "Comment"] empty_world) =
    Return (mkResult
              (Z.of_nat (List.length (filter numeric_timestamp
                 [mkMarker "01:02:03" "Goal"; mkMarker "abc" "Comment"])))
              (Z.of_nat (List.length
                 (filter (fun m => negb (numeric_timestamp m))
                    [mkMarker "01:02:03" "Goal"; mkMarker "abc" "Comment"])))) /\
  calls (snd (insertMarkers _ recordingSink
                [mkMarker "01:02:03" "Goal"; mkMarker "abc" "Comment"] empty_world)) =
    calls empty_world ++
    map (fun m => mkCall (parseFloat (timestamp m)) (comment m) true)
        (filter numeric_timestamp
           [mkMarker "01:02:03" "Goal"; mkMarker "abc" "Comment"]).
Proof.
  exact (insertMarkers_numeric _ recordingSink
           [mkMarker "01:02:03" "Goal"; mkMarker "abc" "Comment"] empty_world []
           (fun _ _ _ => eq_refl) eq_refl).
Defined.

(** ** ImportPipeline: runs that fail, runs that succeed, and [main] *)

Section RunLaws.

Variable Seq : Type.
Variable placeMarker : Seq -> number -> string -> Seq * bool.

Lemma console_extends_refl (w : World Seq) : console_extends w w.
Proof. exists []. split; [now rewrite app_nil_r | constructor]. Qed.

Lemma console_extends_trans (w1 w2 w3 : World Seq) :
  console_extends w1 w2 -> console_extends w2 w3 -> console_extends w1 w3.
Proof.
  intros (m1 & H1 & F1) (m2 & H2 & F2). exists (m1 ++ m2). split.
  - now rewrite H2, H1, app_assoc.
  - apply Forall_app. auto.
Qed.

Lemma log_only_extends {A} (m : M Seq A) (w : World Seq) :
  log_only m -> console_extends w (snd (m w)).
Proof. intros H. exact (proj2 (proj2 (H w))). Qed.

Lemma insertMarkers_extends (markers : list Marker) (w : World Seq) :
  console_extends w (snd (insertMarkers Seq placeMarker markers w)).
Proof.
  unfold insertMarkers. destruct (activeSequence w) as [st|] eqn:Hw.
  - destruct (insertMarkers_loop_trace Seq placeMarker markers 0 0 0 w st Hw)
      as (r & w' & warns & Hrun & _ & Hcon & _ & Hall).
    rewrite Hrun. cbn [snd].
    exists (warns ++
            (if 0 <? skipped r then [(warning, MsgSkipped (skipped r))] else [])).
    split; [exact Hcon|]. apply Forall_app. split.
    + apply (Forall_impl _ (P := fun entry => exists row err,
               entry = (warning, MsgInsertFailed row err) /\ 0 + 2 <= row));
        [|exact Hall].
      intros entry (row & err & -> & _). discriminate.
    + destruct (0 <? skipped r); repeat constructor. discriminate.
  - apply console_extends_refl.
Qed.

Lemma bind_return_inv {A B} (m : M Seq A) (k : A -> M Seq B) (w : World Seq) (b : B) :
  fst (bind m k w) = Return b ->
  exists a, fst (m w) = Return a /\ bind m k w = k a (snd (m w)).
Proof.
  unfold bind. destruct (m w) as [[a|e] w1]; cbn [fst snd].
  - intros _. now exists a.
  - discriminate.
Qed.

Lemma throws_only_weaken {A} (P Q : JSError -> Prop) (m : M Seq A) :
  (forall e, P e -> Q e) -> throws_only P m -> throws_only Q m.
Proof. intros HPQ Hm w e H. apply HPQ, (Hm w e H). Qed.

Lemma throws_only_selectCSVFile (env : Env) :
  throws_only fatal (@selectCSVFile Seq env).
Proof.
  unfold selectCSVFile. destruct (openDialog env).
  - apply throws_only_bind; [apply throws_only_log | intros _; apply throws_only_ret].
  - apply throws_only_ret.
Qed.

Lemma fails_safely_throw {A} (e : JSError) : fatal e -> fails_safely (@throw Seq A e).
Proof. intros He w e' H. simpl in H. injection H as <-. simpl. auto. Qed.

Lemma fails_safely_bind {A B} (m : M Seq A) (k : A -> M Seq B) :
  log_only m -> throws_only fatal m -> (forall a, fails_safely (k a)) ->
  fails_safely (bind m k).
Proof.
  intros Hlog Hthrow Hk w e. unfold bind.
  destruct (Hlog w) as (Hc & Ha & _). specialize (Hthrow w).
  destruct (m w) as [[a|e'] w1]; cbn [fst snd] in *.
  - intros H. destruct (Hk a w1 e H) as (Hf & Hc2 & Ha2).
    repeat split; [exact Hf | congruence | congruence].
  - intros H. injection H as <-. repeat split; auto.
Qed.

(** The loop never throws: past the check of the active sequence, nothing
    can fail any more. *)
Lemma fails_safely_insert_tail (markers : list Marker) :
  fails_safely
    (bind (insertMarkers Seq placeMarker markers)
          (fun result =>
             bind (log (MsgImported (inserted result) (skipped result)) info)
                  (fun _ => ret result))).
Proof.
  intros w e H.
  destruct (activeSequence w) as [st|] eqn:Hw.
  - destruct (insertMarkers_loop_trace Seq placeMarker markers 0 0 0 w st Hw)
      as (r & w' & warns & Hrun & _).
    unfold bind at 1, insertMarkers in H. rewrite Hw, Hrun in H.
    discriminate H.
  - assert (E : bind (insertMarkers Seq placeMarker markers)
                  (fun result =>
                     bind (log (MsgImported (inserted result) (skipped result)) info)
                          (fun _ => ret result)) w
                = (Throw NoActiveSequence, w))
      by (unfold bind at 1, insertMarkers; now rewrite Hw).
    rewrite E in *. cbn [fst snd] in *. injection H as <-.
    split; [exact I | split; [reflexivity | exact Hw]].
Qed.

(** What a run that returns went through. *)
Lemma run_return_inv (env : Env) (w : World Seq) (r : ImportResult) :
  fst (run Seq placeMarker env w) = Return r ->
  exists markers w4 w5,
    markers <> [] /\
    activeSequence w4 = activeSequence w /\
    console_extends w w5 /\
    insertMarkers Seq placeMarker markers w4 = (Return r, w5) /\
    run Seq placeMarker env w =
      (Return r,
       mkWorld (console w5 ++ [(info, MsgImported (inserted r) (skipped r))])
               (activeSequence w5) (calls w5)).
Proof.
  intros H. pose proof (eq_refl (run Seq placeMarker env w)) as E.
  unfold run at 2 in E. rewrite E in H.
  destruct (bind_return_inv _ _ _ _ H) as (filePath & _ & Hb).
  rewrite Hb in E, H. clear Hb.
  pose proof (log_only_selectCSVFile Seq env w) as L1.
  set (w1 := snd (selectCSVFile env w)) in *.
  destruct (falsy filePath); [discriminate H|].
  destruct (bind_return_inv _ _ _ _ H) as (u & _ & Hb).
  rewrite Hb in E, H. clear Hb.
  match type of H with
  | context [snd (log ?msg info w1)] =>
      pose proof (log_only_log Seq msg info ltac:(discriminate) w1) as L2;
      set (w2 := snd (log msg info w1)) in *
  end.
  destruct (bind_return_inv _ _ _ _ H) as (data & _ & Hb).
  rewrite Hb in E, H. clear Hb.
  match type of H with
  | context [snd (readCSV env ?p w2)] =>
      pose proof (log_only_readCSV Seq env p w2) as L3;
      set (w3 := snd (readCSV env p w2)) in *
  end.
  destruct (_ =? 0); [discriminate H|].
  destruct (bind_return_inv _ _ _ _ H) as (markers & Hm & Hb).
  rewrite Hb in E, H. clear Hb.
  pose proof (log_only_parseCSVData Seq data w3) as L4.
  set (w4 := snd (parseCSVData data w3)) in *.
  destruct (bind_return_inv _ _ _ _ H) as (result & Hins & Hb).
  rewrite Hb in E, H. clear Hb.
  pose proof (insertMarkers_extends markers w4) as L5.
  set (w5 := snd (insertMarkers Seq placeMarker markers w4)) in *.
  unfold bind, log, ret in E, H. cbn [fst snd] in E, H.
  injection H as ->.
  exists markers, w4, w5.
  destruct L1 as (_ & A1 & X1). destruct L2 as (_ & A2 & X2).
  destruct L3 as (_ & A3 & X3). destruct L4 as (_ & A4 & X4).
  split; [|split; [|split; [|split]]].
  - rewrite (parseCSVData_result Seq data w3) in Hm.
    destruct (rows_to_markers data); [discriminate Hm|].
    injection Hm as <-. discriminate.
  - congruence.
  - apply (console_extends_trans w w1); [exact X1|].
    apply (console_extends_trans w1 w2); [exact X2|].
    apply (console_extends_trans w2 w3); [exact X3|].
    apply (console_extends_trans w3 w4); [exact X4 | exact L5].
  - subst w5. destruct (insertMarkers Seq placeMarker markers w4) as [c w5'].
    cbn [fst snd] in *. now subst c.
  - exact E.
Qed.

Lemma run_extends (env : Env) (w : World Seq) :
  console_extends w (snd (run Seq placeMarker env w)).
Proof.
  unfold run, bind.
  pose proof (log_only_extends _ w (log_only_selectCSVFile Seq env)) as X1.
  destruct (selectCSVFile env w) as [[filePath|e] w1]; cbn [snd] in *;
    [|exact X1].
  destruct (falsy filePath); [exact X1|].
  match goal with
  | |- context [log ?msg info w1] =>
      pose proof (log_only_extends _ w1
                    (log_only_log Seq msg info ltac:(discriminate))) as X2;
      destruct (log msg info w1) as [[u|e] w2]; cbn [snd] in *
  end;
    [|exact (console_extends_trans _ _ _ X1 X2)].
  match goal with
  | |- context [readCSV env ?p w2] =>
      pose proof (log_only_extends _ w2 (log_only_readCSV Seq env p)) as X3;
      destruct (readCSV env p w2) as [[data|e] w3]; cbn [snd] in *
  end;
    [|exact (console_extends_trans _ _ _ X1 (console_extends_trans _ _ _ X2 X3))].
  assert (X13 : console_extends w w3)
    by exact (console_extends_trans _ _ _ X1 (console_extends_trans _ _ _ X2 X3)).
  destruct (_ =? 0); [exact X13|].
  pose proof (log_only_extends _ w3 (log_only_parseCSVData Seq data)) as X4.
  destruct (parseCSVData data w3) as [[markers|e] w4]; cbn [snd] in *;
    [|exact (console_extends_trans _ _ _ X13 X4)].
  pose proof (insertMarkers_extends markers w4) as X5.
  assert (X15 : console_extends w (snd (insertMarkers Seq placeMarker markers w4)))
    by exact (console_extends_trans _ _ _ X13 (console_extends_trans _ _ _ X4 X5)).
  destruct (insertMarkers Seq placeMarker markers w4) as [[result|e] w5];
    cbn [snd] in *; [|exact X15].
  apply (console_extends_trans _ _ _ X15).
  exists [(info, MsgImported (inserted result) (skipped result))].
  split; [reflexivity|]. repeat constructor. discriminate.
Qed.

End RunLaws.

(** X16: a run can only fail with one of the fatal errors (no file
    selected, missing file, invalid header, empty data, no valid marker, no
    active sequence), never with the error of a single row; and a run that
    fails has invoked the sink not even once and has left the sequence as
    it was. *)
Theorem run_failure (Seq : Type)
        (placeMarker : Seq -> number -> string -> Seq * bool)
        (env : Env) (w : World Seq) (e : JSError) :
  fst (run Seq placeMarker env w) = Throw e ->
  fatal e /\
  calls (snd (run Seq placeMarker env w)) = calls w /\
  activeSequence (snd (run Seq placeMarker env w)) = activeSequence w.
Proof.
  revert w e. change (fails_safely (run Seq placeMarker env)).
  unfold run.
  apply fails_safely_bind;
    [apply log_only_selectCSVFile | apply throws_only_selectCSVFile|].
  intros filePath. destruct (falsy filePath); [now apply fails_safely_throw|].
  apply fails_safely_bind;
    [apply log_only_log; discriminate | apply throws_only_log|].
  intros _. apply fails_safely_bind.
  - apply log_only_readCSV.
  - eapply throws_only_weaken; [|apply throws_only_readCSV].
    intros e [-> | ->]; exact I.
  - intros data. destruct (_ =? 0); [now apply fails_safely_throw|].
    apply fails_safely_bind.
    + apply log_only_parseCSVData.
    + eapply throws_only_weaken; [|apply throws_only_parseCSVData].
      intros e ->. exact I.
    + intros markers. apply fails_safely_insert_tail.
Qed.

Lemma run_failure_witness :
  fatal EmptyData /\
  calls (snd (run _ recordingSink header_only_env empty_world)) = calls empty_world /\
  activeSequence (snd (run _ recordingSink header_only_env empty_world))
    = activeSequence empty_world.
Proof.
  exact (run_failure _ recordingSink header_only_env empty_world EmptyData eq_refl).
Defined.

(** X17: a run that returns had an active sequence and at least one valid
    record: its counts are non-negative and add up to at least 1, and the
    last line it wrote to the console is the summary with exactly these
    counts. *)
Theorem run_success (Seq : Type)
        (placeMarker : Seq -> number -> string -> Seq * bool)
        (env : Env) (w : World Seq) (r : ImportResult) :
  fst (run Seq placeMarker env w) = Return r ->
  isSome (activeSequence w) = true /\
  0 <= inserted r /\ 0 <= skipped r /\ 1 <= inserted r + skipped r /\
  exists pre,
    console (snd (run Seq placeMarker env w)) =
      console w ++ pre ++ [(info, MsgImported (inserted r) (skipped r))].
Proof.
  intros H.
  destruct (run_return_inv Seq placeMarker env w r H)
    as (markers & w4 & w5 & Hne & Hact & (pre & Hpre & _) & Hins & Hrun).
  unfold insertMarkers in Hins.
  destruct (activeSequence w4) as [st|] eqn:Hw4; [|discriminate Hins].
  destruct (insertMarkers_loop_spec Seq placeMarker markers 0 0 0 w4 st Hw4)
    as (r' & w' & new & Hloop & _ & _ & Hargs & Hi & Hs & _).
  rewrite Hloop in Hins. injection Hins as -> ->.
  pose proof (parsed_unparseable_length markers) as Hlen.
  pose proof (count_ok_failed new) as Hcnt.
  rewrite <- Hargs, length_map in Hlen.
  assert (1 <= List.length markers)%nat
    by (destruct markers; [congruence | simpl; lia]).
  rewrite <- Hact. split; [reflexivity|].
  repeat split; try lia.
  exists pre. rewrite Hrun. cbn [snd console]. now rewrite Hpre, <- app_assoc.
Qed.

Lemma run_success_witness :
  isSome (activeSequence empty_world) = true /\
  0 <= inserted (mkResult 2 0) /\ 0 <= skipped (mkResult 2 0) /\
  1 <= inserted (mkResult 2 0) + skipped (mkResult 2 0) /\
  exists pre,
    console (snd (run _ recordingSink example_env empty_world)) =
      console empty_world ++ pre ++
      [(info, MsgImported (inserted (mkResult 2 0)) (skipped (mkResult 2 0)))].
Proof.
  exact (run_success _ recordingSink example_env empty_world (mkResult 2 0) eq_refl).
Defined.

(** X18: [main] never throws. The console only grows, and its last line is
    the summary with the counts of the run when the run returned, or the
    one error line with the error of the run when it failed; no other line
    that [main] writes is an error line. Apart from that line, [main]
    leaves the world as the run left it. *)
Theorem main_outcome (Seq : Type)
        (placeMarker : Seq -> number -> string -> Seq * bool)
        (env : Env) (w : World Seq) :
  fst (main Seq placeMarker env w) = Return tt /\
  calls (snd (main Seq placeMarker env w)) =
    calls (snd (run Seq placeMarker env w)) /\
  activeSequence (snd (main Seq placeMarker env w)) =
    activeSequence (snd (run Seq placeMarker env w)) /\
  exists pre last,
    console (snd (main Seq placeMarker env w)) = console w ++ pre ++ [last] /\
    Forall (fun entry => fst entry <> error) pre /\
    last = match fst (run Seq placeMarker env w) with
           | Return r => (info, MsgImported (inserted r) (skipped r))
           | Throw e => (error, MsgError e)
           end.
Proof.
  destruct (fst (run Seq placeMarker env w)) as [r|e] eqn:H.
  - destruct (run_return_inv Seq placeMarker env w r H)
      as (markers & w4 & w5 & _ & _ & (pre & Hpre & Hall) & _ & Hrun).
    unfold main, try_catch, bind. rewrite Hrun. cbn [fst snd ret].
    repeat split.
    exists pre, (info, MsgImported (inserted r) (skipped r)).
    cbn [console]. rewrite Hpre, <- app_assoc. auto.
  - destruct (run_extends Seq placeMarker env w) as (pre & Hpre & Hall).
    unfold main, try_catch, bind.
    destruct (run Seq placeMarker env w) as [c w']. cbn [fst snd] in *. subst c.
    cbn [log fst snd calls activeSequence console].
    repeat split.
    exists pre, (error, MsgError e). rewrite Hpre, <- app_assoc. auto.
Qed.

(** ** The first script and the final one *)

Section FirstScriptLaws.

Variable Seq : Type.
Variable placeMarker : Seq -> number -> string -> Seq * bool.

Lemma first_readCSV_loop_rows (lines : list string) :
  forall data,
    FirstScript.readCSV_loop lines false data =
      data ++ map (split ",")
                  (filter (fun line => negb (String.eqb line "")) lines).
Proof.
  induction lines as [|line rest IH]; intros data;
    cbn [FirstScript.readCSV_loop filter].
  - simpl. now rewrite app_nil_r.
  - destruct (negb (String.eqb line "")); rewrite IH; [|reflexivity].
    cbn [map]. now rewrite <- app_assoc.
Qed.

Lemma filter_all {A} (f : A -> bool) (l : list A) :
  Forall (fun x => f x = true) l -> filter f l = l.
Proof.
  induction 1 as [|x l Hx _ IH]; simpl; [reflexivity|]. now rewrite Hx, IH.
Qed.

Lemma data_line_not_empty (line : string) :
  data_line line = true -> negb (String.eqb line "") = true.
Proof.
  unfold data_line, blank_line. intros H.
  apply andb_true_iff in H as [H _]. apply negb_true_iff in H.
  apply orb_false_iff in H as [H _]. now rewrite H.
Qed.

Lemma first_parseCSVData_loop (data : list (list string)) :
  forall markers (w : FirstScript.World1 Seq),
    FirstScript.parseCSVData_loop data markers w =
      (markers ++
         map (fun row => mkMarker (trim (nth 0 row "")) (trim (nth 1 row "")))
             (filter (fun row => 2 <=? Z.of_nat (List.length row)) data),
       FirstScript.mkWorld1
         (FirstScript.alerts w ++
            map FirstScript.AlertSkippingRow
                (filter (fun row => negb (2 <=? Z.of_nat (List.length row))) data))
         (FirstScript.sequence1 w) (FirstScript.calls1 w)).
Proof.
  induction data as [|row rest IH]; intros markers [al sq cl];
    cbn [FirstScript.parseCSVData_loop filter].
  - simpl. now rewrite !app_nil_r.
  - destruct (2 <=? Z.of_nat (List.length row)); cbn [negb].
    + rewrite IH. cbn [map]. now rewrite <- app_assoc.
    + rewrite IH. unfold FirstScript.alert. cbn [map FirstScript.alerts
        FirstScript.sequence1 FirstScript.calls1]. now rewrite <- app_assoc.
Qed.

(** With a sink that always succeeds, the loop of the first script runs to
    its end. *)
Lemma first_insertMarkers_loop_ok (markers : list Marker) :
  (forall seq time name, snd (placeMarker seq time name) = true) ->
  forall (w : FirstScript.World1 Seq) (st : Seq),
    FirstScript.sequence1 w = Some st ->
    exists w',
      FirstScript.insertMarkers_loop Seq placeMarker markers w = (Return tt, w') /\
      FirstScript.calls1 w' =
        FirstScript.calls1 w ++ map successful_call (numeric_args markers) /\
      FirstScript.alerts w' =
        FirstScript.alerts w ++
        map (fun m => FirstScript.AlertInvalidTime (timestamp m))
            (filter (fun m => negb (numeric_timestamp m)) markers).
Proof.
  intros Hok. unfold numeric_args.
  induction markers as [|m rest IH]; intros w st Hw;
    cbn [FirstScript.insertMarkers_loop filter].
  - exists w. simpl. now rewrite !app_nil_r.
  - assert (En : numeric_timestamp m = negb (isNaN (parseFloat (timestamp m))))
      by reflexivity.
    rewrite En. destruct (isNaN (parseFloat (timestamp m))); cbn [negb].
    + destruct (IH (FirstScript.alert (FirstScript.AlertInvalidTime (timestamp m)) w)
                   st Hw) as (w' & Hrun & Hcalls & Halerts).
      exists w'. split; [exact Hrun|]. split; [exact Hcalls|].
      rewrite Halerts. cbn [FirstScript.alert FirstScript.alerts map].
      now rewrite <- app_assoc.
    + rewrite Hw. pose proof (Hok st (parseFloat (timestamp m)) (comment m)) as H1.
      destruct (placeMarker st (parseFloat (timestamp m)) (comment m)) as [st' ok].
      cbn [snd] in H1. subst ok.
      destruct (IH (FirstScript.mkWorld1 (FirstScript.alerts w) (Some st')
                      (FirstScript.calls1 w ++
                         [mkCall (parseFloat (timestamp m)) (comment m) true]))
                   st' eq_refl) as (w' & Hrun & Hcalls & Halerts).
      exists w'. split; [exact Hrun|]. split; [|exact Halerts].
      rewrite Hcalls. cbn [FirstScript.calls1 map]. now rewrite <- app_assoc.
Qed.

(** Whatever the sink does, the loop of the first script stops at its first
    failure. *)
Lemma first_insertMarkers_loop_stops (markers : list Marker) :
  forall (w : FirstScript.World1 Seq) (st : Seq),
    FirstScript.sequence1 w = Some st ->
    exists new rest,
      FirstScript.calls1 (snd (FirstScript.insertMarkers_loop Seq placeMarker markers w))
        = FirstScript.calls1 w ++ new /\
      map call_args new ++ rest = numeric_args markers /\
      ((fst (FirstScript.insertMarkers_loop Seq placeMarker markers w) = Return tt /\
        rest = [] /\ Forall (fun c => call_ok c = true) new) \/
       (fst (FirstScript.insertMarkers_loop Seq placeMarker markers w) = Throw HostError /\
        exists pre c, new = pre ++ [c] /\ call_ok c = false /\
                      Forall (fun c' => call_ok c' = true) pre)).
Proof.
  unfold numeric_args.
  induction markers as [|m rest IH]; intros w st Hw;
    cbn [FirstScript.insertMarkers_loop filter].
  - exists [], []. simpl. rewrite app_nil_r. split; [reflexivity|].
    split; [reflexivity|]. left. auto.
  - assert (En : numeric_timestamp m = negb (isNaN (parseFloat (timestamp m))))
      by reflexivity.
    rewrite En. destruct (isNaN (parseFloat (timestamp m))); cbn [negb].
    + exact (IH (FirstScript.alert (FirstScript.AlertInvalidTime (timestamp m)) w)
                st Hw).
    + rewrite Hw.
      destruct (placeMarker st (parseFloat (timestamp m)) (comment m)) as [st' ok].
      destruct ok.
      * destruct (IH (FirstScript.mkWorld1 (FirstScript.alerts w) (Some st')
                        (FirstScript.calls1 w ++
                           [mkCall (parseFloat (timestamp m)) (comment m) true]))
                     st' eq_refl) as (new & rst & Hcalls & Hargs & Hcase).
        exists (mkCall (parseFloat (timestamp m)) (comment m) true :: new), rst.
        split; [rewrite Hcalls; cbn [FirstScript.calls1]; now rewrite <- app_assoc|].
        split; [cbn [map app call_args call_time call_label]; now rewrite Hargs|].
        destruct Hcase as [(Hr & Hrst & Hall) | (Hr & pre & c & Hnew & Hc & Hall)].
        -- left. repeat split; auto.
        -- right. split; [exact Hr|].
           exists (mkCall (parseFloat (timestamp m)) (comment m) true :: pre), c.
           rewrite Hnew. repeat split; auto.
      * exists [mkCall (parseFloat (timestamp m)) (comment m) false],
               (map (fun m0 => (parseFloat (timestamp m0), comment m0))
                    (filter numeric_timestamp rest)).
        cbn [fst snd FirstScript.calls1].
        split; [reflexivity|]. split; [reflexivity|].
        right. split; [reflexivity|].
        exists [], (mkCall (parseFloat (timestamp m)) (comment m) false).
        repeat split; auto.
Qed.

End FirstScriptLaws.

(** X19: [readCSV] of the first script drops the first line whatever it is
    (a blank one too), and returns the comma-separated fields, as they are,
    of every later line that is not the empty string, in file order. *)
Theorem first_readCSV_rows (env : Env) (filePath : string) :
  file_exists (files env filePath) = true ->
  FirstScript.readCSV env filePath =
    Return (map (split ",")
                (filter (fun line => negb (String.eqb line ""))
                        (tl (file_lines (file_text (files env filePath)))))).
Proof.
  intros Hex. unfold FirstScript.readCSV. rewrite Hex. cbn [negb]. f_equal.
  destruct (file_lines (file_text (files env filePath))) as [|first rest];
    [reflexivity|].
  cbn [FirstScript.readCSV_loop tl]. apply (first_readCSV_loop_rows rest []).
Qed.

Lemma first_readCSV_rows_witness :
  FirstScript.readCSV example_env "markers.csv" =
    Return (map (split ",")
                (filter (fun line => negb (String.eqb line ""))
                        (tl (file_lines (file_text (files example_env "markers.csv")))))).
Proof. exact (first_readCSV_rows example_env "markers.csv" eq_refl). Defined.

(** X20: on a file whose first line is a header with at least two columns
    and whose other lines all are data lines (not blank, at least two
    columns), [readCSV] of the final script returns the rows of [readCSV] of
    the first script with every field cleaned. *)
Theorem readCSV_refines_first (Seq : Type) (env : Env) (filePath : string)
        (w : World Seq) (header : string) (rest : list string) :
  file_exists (files env filePath) = true ->
  file_lines (file_text (files env filePath)) = header :: rest ->
  blank_line header = false ->
  (2 <= List.length (split "," header))%nat ->
  Forall (fun line => data_line line = true) rest ->
  exists rows,
    FirstScript.readCSV env filePath = Return rows /\
    fst (readCSV env filePath w) = Return (map (map clean_column) rows).
Proof.
  intros Hex Hlines Hh Hcols Hrest.
  exists (map (split ",") rest). split.
  - unfold FirstScript.readCSV. rewrite Hex, Hlines.
    cbn [negb FirstScript.readCSV_loop]. f_equal.
    rewrite (first_readCSV_loop_rows rest []). cbn [app]. f_equal.
    apply filter_all.
    apply (Forall_impl _ (P := fun line => data_line line = true)); [|exact Hrest].
    exact data_line_not_empty.
  - unfold readCSV. rewrite Hex, Hlines. cbn [negb].
    destruct (readCSV_loop_header Seq [] header rest (Forall_nil _) Hh 0 [] w)
      as (n & Hrun).
    cbn [app] in Hrun. rewrite Hrun.
    replace (Z.of_nat (List.length (columns_of header)) <? 2) with false
      by (symmetry; apply Z.ltb_ge; unfold columns_of; rewrite length_map; lia).
    rewrite (readCSV_loop_data Seq rest n [] w). cbn [app].
    rewrite (filter_all _ rest Hrest), map_map. reflexivity.
Qed.

Lemma readCSV_refines_first_witness :
  exists rows,
    FirstScript.readCSV quoted_env "markers.csv" = Return rows /\
    fst (readCSV quoted_env "markers.csv" empty_world) =
      Return (map (map clean_column) rows).
Proof.
  apply (readCSV_refines_first _ quoted_env "markers.csv" empty_world "t,c"
           [String dquote ("5" ++ String dquote ("," ++ String dquote
              ("Nice shot" ++ String dquote "")))]%string).
  - reflexivity.
  - reflexivity.
  - reflexivity.
  - simpl. lia.
  - repeat constructor.
Defined.

(** X21: on rows as the final [readCSV] returns them (at least two fields,
    every field trimmed), the records of the final [parseCSVData] are those
    of [parseCSVData] of the first script whose timestamp and comment are
    both not empty, in the same order; the first script itself keeps the
    records with an empty field, and alerts nothing for such rows. *)
Theorem parseCSVData_refines_first (Seq : Type) (data : list (list string))
        (w1 : FirstScript.World1 Seq) :
  Forall (fun row => (2 <= List.length row)%nat /\
                     Forall (fun field => trim field = field) row) data ->
  rows_to_markers data =
    filter complete_marker (fst (FirstScript.parseCSVData data w1)) /\
  List.length (fst (FirstScript.parseCSVData data w1)) = List.length data /\
  FirstScript.alerts (snd (FirstScript.parseCSVData data w1)) = FirstScript.alerts w1.
Proof.
  intros Hdata. unfold FirstScript.parseCSVData.
  rewrite (first_parseCSVData_loop Seq data [] w1). cbn [fst snd app FirstScript.alerts].
  induction Hdata as [|row rest (Hlen & Hfields) _ (IH1 & IH2 & IH3)].
  - simpl. rewrite app_nil_r. auto.
  - cbn [filter rows_to_markers].
    replace (2 <=? Z.of_nat (List.length row)) with true
      by (symmetry; apply Z.leb_le; lia).
    cbn [negb map filter List.length].
    destruct row as [|t [|c row]]; try (simpl in Hlen; lia).
    inversion Hfields as [|? ? Ht Hf']; subst.
    inversion Hf' as [|? ? Hc _]; subst.
    cbn [nth]. rewrite Ht, Hc.
    unfold marker_of_row, complete_marker. cbn [nth_error timestamp comment].
    rewrite IH2. split; [|split; [reflexivity | exact IH3]].
    destruct (String.eqb t ""); destruct (String.eqb c ""); cbn [orb negb andb];
      now rewrite IH1.
Qed.

Lemma parseCSVData_refines_first_witness :
  rows_to_markers [["10"; "Goal"]; [""; "Empty"]]%string =
    filter complete_marker
      (fst (FirstScript.parseCSVData [["10"; "Goal"]; [""; "Empty"]]%string
              (FirstScript.mkWorld1 [] (Some tt) []))) /\
  List.length (fst (FirstScript.parseCSVData [["10"; "Goal"]; [""; "Empty"]]%string
                      (FirstScript.mkWorld1 [] (Some tt) []))) =
    List.length [["10"; "Goal"]; [""; "Empty"]]%string /\
  FirstScript.alerts
    (snd (FirstScript.parseCSVData [["10"; "Goal"]; [""; "Empty"]]%string
            (FirstScript.mkWorld1 [] (Some tt) []))) =
    FirstScript.alerts (FirstScript.mkWorld1 (Seq := unit) [] (Some tt) []).
Proof.
  apply (parseCSVData_refines_first unit [["10"; "Goal"]; [""; "Empty"]]%string
           (FirstScript.mkWorld1 [] (Some tt) [])).
  repeat constructor.
Defined.

(** X22: with an active sequence and a sink that always succeeds, the final
    [insertMarkers], which goes through [parseTimeString], makes exactly
    the sink invocations of [insertMarkers] of the first script, which only
    calls [parseFloat]; and the first script shows one invalid-time alert
    for each record that the final one counts as skipped. *)
Theorem insertMarkers_same_as_first (Seq : Type)
        (placeMarker : Seq -> number -> string -> Seq * bool)
        (markers : list Marker)
        (w1 : FirstScript.World1 Seq) (w : World Seq) (st1 st : Seq) :
  (forall seq time name, snd (placeMarker seq time name) = true) ->
  FirstScript.sequence1 w1 = Some st1 ->
  activeSequence w = Some st ->
  exists new r extra,
    fst (FirstScript.insertMarkers Seq placeMarker markers w1) = Return tt /\
    fst (insertMarkers Seq placeMarker markers w) = Return r /\
    FirstScript.calls1 (snd (FirstScript.insertMarkers Seq placeMarker markers w1))
      = FirstScript.calls1 w1 ++ new /\
    calls (snd (insertMarkers Seq placeMarker markers w)) = calls w ++ new /\
    FirstScript.alerts (snd (FirstScript.insertMarkers Seq placeMarker markers w1))
      = FirstScript.alerts w1 ++ extra /\
    Z.of_nat (List.length extra) = skipped r /\
    Z.of_nat (List.length new) = inserted r.
Proof.
  intros Hok Hw1 Hw.
  destruct (first_insertMarkers_loop_ok Seq placeMarker markers Hok w1 st1 Hw1)
    as (w1' & Hrun1 & Hcalls1 & Halerts1).
  destruct (insertMarkers_all_succeed Seq placeMarker markers w st Hok Hw)
    as (w' & Hrun & Hcalls).
  destruct (parsed_args_numeric markers) as (Hpa & Hun).
  exists (map successful_call (numeric_args markers)),
         (mkResult (Z.of_nat (List.length (parsed_args markers)))
                   (Z.of_nat (unparseable markers))),
         (map (fun m => FirstScript.AlertInvalidTime (timestamp m))
              (filter (fun m => negb (numeric_timestamp m)) markers)).
  unfold FirstScript.insertMarkers. rewrite Hw1, Hrun1, Hrun. cbn [fst snd].
  rewrite Hcalls, Hpa, Hun. unfold numeric_args. cbn [inserted skipped].
  rewrite !length_map. repeat split; auto.
Qed.

Lemma insertMarkers_same_as_first_witness :
  exists new r extra,
    fst (FirstScript.insertMarkers _ recordingSink
           [mkMarker "10" "Goal"; mkMarker "abc" "Comment"]
           (FirstScript.mkWorld1 [] (Some []) [])) = Return tt /\
    fst (insertMarkers _ recordingSink
           [mkMarker "10" "Goal"; mkMarker "abc" "Comment"] empty_world) = Return r /\
    FirstScript.calls1
      (snd (FirstScript.insertMarkers _ recordingSink
              [mkMarker "10" "Goal"; mkMarker "abc" "Comment"]
              (FirstScript.mkWorld1 [] (Some []) [])))
      = [] ++ new /\
    calls (snd (insertMarkers _ recordingSink
                  [mkMarker "10" "Goal"; mkMarker "abc" "Comment"] empty_world))
      = calls empty_world ++ new /\
    FirstScript.alerts
      (snd (FirstScript.insertMarkers _ recordingSink
              [mkMarker "10" "Goal"; mkMarker "abc" "Comment"]
              (FirstScript.mkWorld1 [] (Some []) [])))
      = [] ++ extra /\
    Z.of_nat (List.length extra) = skipped r /\
    Z.of_nat (List.length new) = inserted r.
Proof.
  exact (insertMarkers_same_as_first _ recordingSink
           [mkMarker "10" "Goal"; mkMarker "abc" "Comment"]
           (FirstScript.mkWorld1 [] (Some []) []) empty_world [] []
           (fun _ _ _ => eq_refl) eq_refl eq_refl).
Defined.

(** X23: whatever the sink does, [insertMarkers] of the first script offers
    the records whose timestamp is a number to the sink in order and stops
    at the first failure of the sink: either every invocation succeeded and
    every such record was offered, or it throws the failure of the host and
    the failed invocation is the last one it made. *)
Theorem first_insertMarkers_stops (Seq : Type)
        (placeMarker : Seq -> number -> string -> Seq * bool)
        (markers : list Marker) (w : FirstScript.World1 Seq) (st : Seq) :
  FirstScript.sequence1 w = Some st ->
  exists new rest,
    FirstScript.calls1 (snd (FirstScript.insertMarkers Seq placeMarker markers w))
      = FirstScript.calls1 w ++ new /\
    map call_args new ++ rest = numeric_args markers /\
    ((fst (FirstScript.insertMarkers Seq placeMarker markers w) = Return tt /\
      rest = [] /\ Forall (fun c => call_ok c = true) new) \/
     (fst (FirstScript.insertMarkers Seq placeMarker markers w) = Throw HostError /\
      exists pre c, new = pre ++ [c] /\ call_ok c = false /\
                    Forall (fun c' => call_ok c' = true) pre)).
Proof.
  intros Hw. unfold FirstScript.insertMarkers. rewrite Hw.
  exact (first_insertMarkers_loop_stops Seq placeMarker markers w st Hw).
Qed.

Lemma first_insertMarkers_stops_witness :
  exists new rest,
    FirstScript.calls1
      (snd (FirstScript.insertMarkers _ rejectingSink
              [mkMarker "10" "Goal"; mkMarker "20" "Save"]
              (FirstScript.mkWorld1 [] (Some tt) [])))
      = [] ++ new /\
    map call_args new ++ rest =
      numeric_args [mkMarker "10" "Goal"; mkMarker "20" "Save"] /\
    ((fst (FirstScript.insertMarkers _ rejectingSink
             [mkMarker "10" "Goal"; mkMarker "20" "Save"]
             (FirstScript.mkWorld1 [] (Some tt) [])) = Return tt /\
      rest = [] /\ Forall (fun c => call_ok c = true) new) \/
     (fst (FirstScript.insertMarkers _ rejectingSink
             [mkMarker "10" "Goal"; mkMarker "20" "Save"]
             (FirstScript.mkWorld1 [] (Some tt) [])) = Throw HostError /\
      exists pre c, new = pre ++ [c] /\ call_ok c = false /\
                    Forall (fun c' => call_ok c' = true) pre)).
Proof.
  exact (first_insertMarkers_stops _ rejectingSink
           [mkMarker "10" "Goal"; mkMarker "20" "Save"]
           (FirstScript.mkWorld1 [] (Some tt) []) tt eq_refl).
Defined.

Lemma split_length (sep : ascii) (s : string) :
  List.length (split sep s) = S (count_char sep s).
Proof.
  induction s as [|x s IH]; simpl; [reflexivity|].
  destruct (Ascii.eqb x sep); simpl; [now rewrite IH|].
  destruct (split sep s); simpl in *; [discriminate IH | exact IH].
Qed.

(** X24: a line has exactly one more column than it has commas, quoted or
    not; so the header is accepted exactly when its line contains a comma,
    and a line is a data line exactly when it is not blank and contains a
    comma. *)
Theorem columns_of_commas (line : string) :
  List.length (columns_of line) = S (count_char "," line) /\
  (data_line line = true <->
   blank_line line = false /\ (1 <= count_char "," line)%nat).
Proof.
  assert (H : List.length (columns_of line) = S (count_char "," line))
    by (unfold columns_of; rewrite length_map; apply split_length).
  split; [exact H|].
  unfold data_line. rewrite andb_true_iff, negb_true_iff, Z.leb_le, H.
  intuition lia.
Qed.

(** X25: when the file has no line after the first that is not the empty
    string, the first script, with an active sequence, alerts the empty
    data, places no marker and still ends with the alert that the markers
    were inserted. *)
Theorem first_main_no_data (Seq : Type)
        (placeMarker : Seq -> number -> string -> Seq * bool)
        (env : Env) (filePath : string) (w : FirstScript.World1 Seq) (st : Seq) :
  openDialog env = Some filePath -> filePath <> ""%string ->
  file_exists (files env filePath) = true ->
  Forall (fun line => line = ""%string)
         (tl (file_lines (file_text (files env filePath)))) ->
  FirstScript.sequence1 w = Some st ->
  FirstScript.main Seq placeMarker env w =
    FirstScript.mkWorld1
      (FirstScript.alerts w ++
         [FirstScript.AlertCsvData []; FirstScript.AlertCsvEmpty;
          FirstScript.AlertInserted])
      (FirstScript.sequence1 w) (FirstScript.calls1 w).
Proof.
  intros Hd Hne Hex Hrest Hw.
  assert (Hread : FirstScript.readCSV env filePath = Return []).
  { unfold FirstScript.readCSV. rewrite Hex. cbn [negb]. f_equal.
    destruct (file_lines (file_text (files env filePath))) as [|first rest];
      [reflexivity|].
    cbn [FirstScript.readCSV_loop tl] in *.
    rewrite (first_readCSV_loop_rows rest []). cbn [app].
    induction Hrest as [|line rest -> _ IH]; [reflexivity | exact IH]. }
  unfold FirstScript.main, FirstScript.run. rewrite Hd. cbn [falsy].
  rewrite (proj2 (String.eqb_neq filePath "") Hne), Hread.
  unfold FirstScript.parseCSVData, FirstScript.insertMarkers.
  cbn [FirstScript.parseCSVData_loop FirstScript.alert FirstScript.sequence1
       FirstScript.alerts FirstScript.calls1].
  rewrite Hw. cbn [FirstScript.insertMarkers_loop FirstScript.alert
                   FirstScript.sequence1 FirstScript.alerts FirstScript.calls1].
  unfold FirstScript.alert.
  cbn [FirstScript.sequence1 FirstScript.alerts FirstScript.calls1].
  rewrite <- !app_assoc, Hw. reflexivity.
Qed.

Lemma first_main_no_data_witness :
  FirstScript.main _ recordingSink header_only_env
    (FirstScript.mkWorld1 [] (Some []) []) =
  FirstScript.mkWorld1
    ([] ++ [FirstScript.AlertCsvData []; FirstScript.AlertCsvEmpty;
            FirstScript.AlertInserted])
    (Some []) [].
Proof.
  apply (first_main_no_data _ recordingSink header_only_env "markers.csv"
           (FirstScript.mkWorld1 [] (Some []) []) []).
  - reflexivity.
  - discriminate.
  - reflexivity.
  - constructor.
  - reflexivity.
Defined.
